(** * Shallow embedding of the thermal-image ingestion pipeline
    (src/image extraction/thermal images automatic Data uploader.py).

    Python strings are modelled as lists of characters whose codes are
    Latin-1 code points (0..255); the JSON values produced by exiftool
    are modelled by [jval]. Paths are absolute and normalised, so
    [os.path.abspath] is the identity on them, and the path separator
    is "/". *)

From Stdlib Require Import Ascii String ZArith QArith Lia.
From Stdlib Require Import Numbers.DecimalString.
From stdpp Require Import base list gmap sets strings.

Open Scope Z_scope.

(** Python [str] values. *)
Abbreviation pystr := (list ascii).

Definition str (s : string) : pystr := list_ascii_of_string s.

Definition code (c : ascii) : Z := Z.of_nat (nat_of_ascii c).

Definition chr (n : Z) : ascii := ascii_of_nat (Z.to_nat n).

Definition ascii_eqb (a b : ascii) : bool := Ascii.eqb a b.

(** ** Character classes *)

Definition is_digit (c : ascii) : bool := (48 <=? code c) && (code c <=? 57).

Definition is_upper_az (c : ascii) : bool := (65 <=? code c) && (code c <=? 90).

Definition is_lower_az (c : ascii) : bool := (97 <=? code c) && (code c <=? 122).

(** Python's [str.isspace] / regex [\s] on Latin-1 code points. *)
Definition is_space (c : ascii) : bool :=
  let n := code c in
  ((9 <=? n) && (n <=? 13)) || ((28 <=? n) && (n <=? 32)) || (n =? 133) || (n =? 160).

Definition digit_val (c : ascii) : Z := code c - 48.

Definition digit (v : Z) : ascii := chr (48 + v).

(** [str.upper()] of one Latin-1 character. U+00FF and U+00B5 upper-case
    to characters outside Latin-1 that are neither A-Z nor 0-9; they are
    kept unchanged, which [clean_asset_code] treats the same way. *)
Definition py_upper_char (c : ascii) : pystr :=
  let n := code c in
  if is_lower_az c then [chr (n - 32)]
  else if n =? 223 then str "SS"
  else if (224 <=? n) && (n <=? 254) && negb (n =? 247) then [chr (n - 32)]
  else [c].

Definition py_upper (s : pystr) : pystr := mbind py_upper_char s.

(** [str.lower()] of one Latin-1 character. Characters outside Latin-1
    are not represented; some of them lower-case into ASCII (U+212A,
    the Kelvin sign, gives "k"). *)
Definition py_lower_char (c : ascii) : ascii :=
  let n := code c in
  if is_upper_az c then chr (n + 32)
  else if (192 <=? n) && (n <=? 222) && negb (n =? 215) then chr (n + 32)
  else c.

Definition py_lower (s : pystr) : pystr := map py_lower_char s.

(** [s.startswith(p)] and [s.endswith(p)]. *)
Fixpoint startswith (s p : pystr) : bool :=
  match p, s with
  | [], _ => true
  | c :: p', d :: s' => ascii_eqb c d && startswith s' p'
  | _ :: _, [] => false
  end.

Definition endswith (s p : pystr) : bool := startswith (rev s) (rev p).

(** [s[:n]] *)
Definition py_take (n : nat) (s : pystr) : pystr := take n s.

(** [s.replace(old_c, new_c, count)] for one-character [old_c]. *)
Fixpoint replace_count (o n : ascii) (count : nat) (s : pystr) : pystr :=
  match count, s with
  | O, _ => s
  | _, [] => []
  | S k, c :: s' =>
      if ascii_eqb c o then n :: replace_count o n k s'
      else c :: replace_count o n count s'
  end.

(** Python's [min] over strings: code-point lexicographic order. *)
Fixpoint str_ltb (a b : pystr) : bool :=
  match a, b with
  | _, [] => false
  | [], _ :: _ => true
  | c :: a', d :: b' =>
      if code c <? code d then true
      else if code d <? code c then false
      else str_ltb a' b'
  end.

Definition py_min (x : pystr) (l : list pystr) : pystr :=
  fold_left (fun m y => if str_ltb y m then y else m) l x.

(** [str.strip()] *)
Definition lstrip (s : pystr) : pystr :=
  (fix go s := match s with c :: s' => if is_space c then go s' else s | [] => [] end) s.

Definition py_strip (s : pystr) : pystr := rev (lstrip (rev (lstrip s))).

(** [str(i)] for a Python int. *)
Definition str_of_Z (z : Z) : pystr := list_ascii_of_string (NilEmpty.string_of_int (Z.to_int z)).

(** ** JSON values as returned by [json.loads] on exiftool's output.
    JSON numbers with a fraction or exponent (Python floats) are not
    modelled. *)
Inductive jval : Type :=
| JNull
| JBool (b : bool)
| JInt (z : Z)
| JStr (s : pystr).

(** Python truthiness: [not x]. *)
Definition py_falsy (v : jval) : bool :=
  match v with
  | JNull => true
  | JBool b => negb b
  | JInt z => z =? 0
  | JStr s => match s with [] => true | _ => false end
  end.

(** [str(v)] *)
Definition py_str (v : jval) : pystr :=
  match v with
  | JNull => str "None"
  | JBool true => str "True"
  | JBool false => str "False"
  | JInt z => str_of_Z z
  | JStr s => s
  end.

(** Digits with single underscores between them, as accepted by [int()]
    and [float()]; the accumulator holds the value read so far. *)
Fixpoint digits_us (acc : Z) (l : pystr) : option Z :=
  match l with
  | [] => Some acc
  | c :: l' =>
      if is_digit c then digits_us (acc * 10 + digit_val c) l'
      else if ascii_eqb c "_" then
        match l' with
        | d :: l'' => if is_digit d then digits_us (acc * 10 + digit_val d) l'' else None
        | [] => None
        end
      else None
  end.

Definition digit_group (l : pystr) : option Z :=
  match l with
  | d :: l' => if is_digit d then digits_us (digit_val d) l' else None
  | [] => None
  end.

(** [int(s)] for a string: [None] stands for the [ValueError]. *)
Definition py_int_of_str (s : pystr) : option Z :=
  match py_strip s with
  | c :: r =>
      if ascii_eqb c "-" then option_map Z.opp (digit_group r)
      else if ascii_eqb c "+" then digit_group r
      else digit_group (c :: r)
  | [] => None
  end.

(** [int(v)]: [None] stands for the exception it raises. *)
Definition py_int (v : jval) : option Z :=
  match v with
  | JNull => None
  | JBool b => Some (if b then 1 else 0)
  | JInt z => Some z
  | JStr s => py_int_of_str s
  end.

(** The rest of a string after a maximal [digitpart] of Python's float
    grammar ([digit (["_"] digit)*]); [None] if it does not start with a
    digit. *)
Fixpoint digitpart_tail (l : pystr) : pystr :=
  match l with
  | c :: l' =>
      if is_digit c then digitpart_tail l'
      else if ascii_eqb c "_" then
        match l' with
        | d :: l'' => if is_digit d then digitpart_tail l'' else l
        | [] => l
        end
      else l
  | [] => []
  end.

Definition digitpart (l : pystr) : option pystr :=
  match l with
  | d :: l' => if is_digit d then Some (digitpart_tail l') else None
  | [] => None
  end.

Definition exponent_ok (l : pystr) : bool :=
  match l with
  | [] => true
  | e :: r =>
      if ascii_eqb e "e" || ascii_eqb e "E" then
        let r' := match r with
                  | s :: r'' => if ascii_eqb s "+" || ascii_eqb s "-" then r'' else r
                  | [] => r
                  end in
        match digitpart r' with Some [] => true | _ => false end
      else false
  end.

Definition decimal_ok (l : pystr) : bool :=
  match digitpart l with
  | Some (p :: r) =>
      if ascii_eqb p "." then
        match digitpart r with Some r' => exponent_ok r' | None => exponent_ok r end
      else exponent_ok (p :: r)
  | Some [] => true
  | None =>
      match l with
      | p :: r => ascii_eqb p "." &&
                  match digitpart r with Some r' => exponent_ok r' | None => false end
      | [] => false
      end
  end.

Definition float_text_ok (l : pystr) : bool :=
  let t := py_lower l in
  bool_decide (t = str "inf") || bool_decide (t = str "infinity")
  || bool_decide (t = str "nan") || decimal_ok l.

(** Whether [float(v)] succeeds. *)
Definition py_float_ok (v : jval) : bool :=
  match v with
  | JNull => false
  | JBool _ => true
  | JInt _ => true
  | JStr s =>
      match py_strip s with
      | c :: r => if ascii_eqb c "-" || ascii_eqb c "+" then float_text_ok r
                  else float_text_ok (c :: r)
      | [] => false
      end
  end.

(** [clean_asset_code(raw_input)] *)
Definition clean_asset_code (raw_input : jval) : option pystr :=
  if py_falsy raw_input then None
  else
    let clean := filter (fun c => is_upper_az c || is_digit c) (py_upper (py_str raw_input)) in
    match clean with [] => None | _ => Some clean end.

(** ** [datetime.strptime] and [datetime.strftime]

    [datetime.strptime(s, fmt)] compiles [fmt] into a regular expression
    (CPython's [_strptime.TimeRE]) and takes the first match that
    [re.match] finds by backtracking; if that match does not reach the end
    of [s] it raises "unconverted data remains". Matchers below return
    all matches in the order the backtracking engine tries them. *)
Module Strptime.

(** One alternative of a field: a sequence of character classes. *)
Definition alt := list (ascii -> bool).

Fixpoint match_seq (a : alt) (s : pystr) : option (pystr * pystr) :=
  match a with
  | [] => Some ([], s)
  | k :: a' =>
      match s with
      | c :: s' =>
          if k c then
            match match_seq a' s' with
            | Some (m, r) => Some (c :: m, r)
            | None => None
            end
          else None
      | [] => None
      end
  end.

Definition match_alts (alts : list alt) (s : pystr) : list (pystr * pystr) :=
  alts ≫= (fun a => match match_seq a s with Some x => [x] | None => [] end).

(** [\s*] and [\s+], greedy: longest match first. *)
Fixpoint ws_star (s : pystr) : list (pystr * pystr) :=
  match s with
  | c :: s' =>
      if is_space c then map (fun '(w, r) => (c :: w, r)) (ws_star s') ++ [([], s)]
      else [([], s)]
  | [] => [([], [])]
  end.

Definition ws_plus (s : pystr) : list (pystr * pystr) :=
  match s with
  | c :: s' => if is_space c then map (fun '(w, r) => (c :: w, r)) (ws_star s') else []
  | [] => []
  end.

Inductive item : Type :=
| Field (alts : list alt)   (* a named group [(?P<x>...)] *)
| Lit (c : ascii)           (* a literal character of the format *)
| Space.                    (* whitespace of the format, compiled to [\s+] *)

Definition is_ch (c : ascii) : ascii -> bool := fun d => ascii_eqb c d.
Definition in_rng (lo hi : ascii) : ascii -> bool :=
  fun d => (code lo <=? code d) && (code d <=? code hi).
Definition any_digit : ascii -> bool := is_digit.

(** [(?P<Y>\d\d\d\d)] *)
Definition re_Y : list alt := [[any_digit; any_digit; any_digit; any_digit]].
(** [(?P<m>1[0-2]|0[1-9]|[1-9])] *)
Definition re_m : list alt :=
  [[is_ch "1"; in_rng "0" "2"]; [is_ch "0"; in_rng "1" "9"]; [in_rng "1" "9"]].
(** [(?P<d>3[01]|[12]\d|0[1-9]|[1-9]| [1-9])] *)
Definition re_d : list alt :=
  [[is_ch "3"; in_rng "0" "1"]; [in_rng "1" "2"; any_digit]; [is_ch "0"; in_rng "1" "9"];
   [in_rng "1" "9"]; [is_ch " "; in_rng "1" "9"]].
(** [(?P<H>2[0-3]|[0-1]\d|\d)] *)
Definition re_H : list alt := [[is_ch "2"; in_rng "0" "3"]; [in_rng "0" "1"; any_digit]; [any_digit]].
(** [(?P<M>[0-5]\d|\d)] *)
Definition re_M : list alt := [[in_rng "0" "5"; any_digit]; [any_digit]].
(** [(?P<S>6[0-1]|[0-5]\d|\d)] *)
Definition re_S : list alt := [[is_ch "6"; in_rng "0" "1"]; [in_rng "0" "5"; any_digit]; [any_digit]].

(** Matches of one item: the captured groups and the rest of the input. *)
Definition match_item (it : item) (s : pystr) : list (list pystr * pystr) :=
  match it with
  | Field alts => map (fun '(m, r) => ([m], r)) (match_alts alts s)
  | Lit c => match s with d :: s' => if ascii_eqb c d then [([], s')] else [] | [] => [] end
  | Space => map (fun '(_, r) => ([], r)) (ws_plus s)
  end.

Fixpoint match_pat (p : list item) (s : pystr) : list (list pystr * pystr) :=
  match p with
  | [] => [([], s)]
  | it :: p' =>
      match_item it s ≫= (fun '(c, r) => map (fun '(cs, r') => (c ++ cs, r')) (match_pat p' r))
  end.

(** ["%Y:%m:%d %H:%M:%S"] and ["%Y-%m-%d %H:%M:%S"] *)
Definition fmt_with (sep : ascii) : list item :=
  [Field re_Y; Lit sep; Field re_m; Lit sep; Field re_d; Space;
   Field re_H; Lit ":"; Field re_M; Lit ":"; Field re_S].

Definition fmt_colon : list item := fmt_with ":".
Definition fmt_hyphen : list item := fmt_with "-".

End Strptime.

(** A naive [datetime] at second precision. *)
Record datetime := mkdt { dt_year : Z; dt_month : Z; dt_day : Z;
                          dt_hour : Z; dt_minute : Z; dt_second : Z }.

Definition is_leap (y : Z) : bool :=
  ((y mod 4 =? 0) && negb (y mod 100 =? 0)) || (y mod 400 =? 0).

Definition days_in_month (y m : Z) : Z :=
  if (m =? 4) || (m =? 6) || (m =? 9) || (m =? 11) then 30
  else if m =? 2 then (if is_leap y then 29 else 28)
  else 31.

(** The checks of the [datetime] constructor. *)
Definition dt_valid (d : datetime) : bool :=
  (1 <=? dt_year d) && (dt_year d <=? 9999) &&
  (1 <=? dt_month d) && (dt_month d <=? 12) &&
  (1 <=? dt_day d) && (dt_day d <=? days_in_month (dt_year d) (dt_month d)) &&
  (0 <=? dt_hour d) && (dt_hour d <=? 23) &&
  (0 <=? dt_minute d) && (dt_minute d <=? 59) &&
  (0 <=? dt_second d) && (dt_second d <=? 59).

(** [int()] of a captured group ([\d] or a space then a digit). *)
Definition group_int (g : pystr) : Z :=
  fold_left (fun acc c => if is_digit c then acc * 10 + digit_val c else acc) g 0.

(** [datetime.strptime(s, fmt)]; [None] is the [ValueError]. *)
Definition strptime (fmt : list Strptime.item) (s : pystr) : option datetime :=
  match Strptime.match_pat fmt s with
  | ([y; mo; d; h; mi; se], []) :: _ =>
      let dt := mkdt (group_int y) (group_int mo) (group_int d)
                     (group_int h) (group_int mi) (group_int se) in
      if dt_valid dt then Some dt else None
  | _ => None
  end.

(** Zero-padded decimal rendering on [n] digits. *)
Fixpoint pad (n : nat) (v : Z) : pystr :=
  match n with
  | O => []
  | S n' => pad n' (v / 10) ++ [digit (v mod 10)]
  end.

(** The number of digits of a year of [datetime] (1 to 9999) written
    without leading zeros. *)
Definition year_width (y : Z) : nat :=
  if y <? 10 then 1 else if y <? 100 then 2 else if y <? 1000 then 3 else 4.

(** [dt.strftime("%Y" ++ sep ++ "%m" ++ sep ++ "%d %H:%M:%S")] as CPython
    with glibc renders it: [%Y] is the year without leading zeros (year
    999 gives "999"), the other fields have two digits. *)
Definition strftime_with (sep : ascii) (d : datetime) : pystr :=
  pad (year_width (dt_year d)) (dt_year d) ++ [sep] ++ pad 2 (dt_month d) ++ [sep] ++ pad 2 (dt_day d) ++ [" "%char] ++
  pad 2 (dt_hour d) ++ [":"%char] ++ pad 2 (dt_minute d) ++ [":"%char] ++ pad 2 (dt_second d).

(** ["%Y-%m-%d %H:%M:%S"], the format of the stored timestamp. *)
Definition strftime_db (d : datetime) : pystr := strftime_with "-" d.

(** Lexicographic order on lists of integers. *)
Fixpoint lex_le (a b : list Z) : bool :=
  match a, b with
  | x :: a', y :: b' => (x <? y) || ((x =? y) && lex_le a' b')
  | _, _ => true
  end.

Definition dt_fields (d : datetime) : list Z :=
  [dt_year d; dt_month d; dt_day d; dt_hour d; dt_minute d; dt_second d].

(** The instants (at second precision) that a pandas 2.x [datetime64[ns]]
    holds: from [Timestamp.min] = 1677-09-21 00:12:43.145224193 to
    [Timestamp.max] = 2262-04-11 23:47:16.854775807. A conversion to it
    of an instant outside raises [OutOfBoundsDatetime]. *)
Definition pd_in_bounds (d : datetime) : bool :=
  lex_le [1677; 9; 21; 0; 12; 44] (dt_fields d) && lex_le (dt_fields d) [2262; 4; 11; 23; 47; 16].

(** The timestamp steps of [process_image] (lines 230-247): take the
    first 19 characters, try the colon format, then the hyphen format,
    and render the result for the store. *)
Definition parse_timestamp (raw_ts : pystr) : option pystr :=
  let clean_ts := py_take 19 raw_ts in
  match strptime Strptime.fmt_colon clean_ts with
  | Some dt_obj => Some (strftime_db dt_obj)
  | None =>
      match strptime Strptime.fmt_hyphen clean_ts with
      | Some dt_obj => Some (strftime_db dt_obj)
      | None => None
      end
  end.

(** The timestamp part of the duplicate filter's signature
    ([run_pipeline], line 409). *)
Definition filter_ts (raw : pystr) : pystr := py_take 19 (replace_count ":" "-" 2 raw).

(** ** Data model of the pipeline *)

(** One exiftool record ([m.get(k)]): [None] when the key is absent. *)
Record meta := mkmeta {
  m_source : option jval;   (* "SourceFile" *)
  m_dto : option jval;      (* "DateTimeOriginal" *)
  m_serial : option jval;   (* "CameraSerialNumber" *)
  m_desc : option jval;     (* "ImageDescription" *)
  m_emis : option jval;     (* "Emissivity" *)
  m_dist : option jval      (* "ObjectDistance" *)
}.

(** The empty dict [{}]. *)
Definition empty_meta : meta := mkmeta None None None None None None.

(** [d.get(k, default)] *)
Definition get_or (o : option jval) (default : jval) : jval :=
  match o with Some v => v | None => default end.

(** A store row as read back by [get_existing_signatures]. *)
Record db_row := mkdbrow { db_asset : option pystr; db_ts : datetime; db_serial : Z }.

(** The part of a built row that the pipeline's logic depends on; the
    temperature statistics, the weather value and the rendered image are
    floating-point or opaque data and are not modelled. *)
Record row := mkrow { r_ts : pystr; r_filename : pystr; r_serial : Z; r_asset : pystr }.

(** A signature [(asset, timestamp string, serial)]; the asset is [None]
    when [clean_asset_code] returns [None]. *)
Abbreviation sig := (option pystr * pystr * Z)%type.

(** Effects of a pipeline pass, in order. *)
Inductive event : Type :=
| EvArchive (p : pystr)                          (* move_to_archive(p) is called *)
| EvWrite (ok : bool) (paths : list pystr) (rows : list row).
    (* df.to_sql on a chunk's rows, built from [paths]; [ok]: it returned *)

(** What the outside world answers during one pass. *)
Record env := mkenv {
  env_archive : pystr;                            (* os.path.abspath(ARCHIVE_FOLDER) *)
  env_exiftool : option (list meta);              (* parsed exiftool output; [None]: timeout,
                                                     failure, empty or unparsable output *)
  env_db_query : pystr -> option (list db_row);   (* rows of the signature query for a start
                                                     date; [None]: the query raises *)
  env_walk : list (pystr * list pystr);           (* os.walk of the root: (dirpath, filenames) *)
  env_thermal_ok : pystr -> bool;                 (* flyr.unpack, statistics and rendering succeed *)
  env_write_ok : nat -> bool;                     (* to_sql succeeds for the chunk starting at i *)
  env_dateutil_ok : pystr -> bool                 (* pd.to_datetime of a timestamp string that is
                                                     not ISO 8601 with a four-digit year returns:
                                                     dateutil's reading of it (for a year of one or
                                                     two digits it depends on the current date)
                                                     lies within pandas' bounds *)
}.

(** os.path.join and os.path.basename with separator "/". *)
Definition path_join (d f : pystr) : pystr :=
  if endswith d (str "/") then d ++ f else d ++ str "/" ++ f.

Fixpoint take_while (P : ascii -> bool) (l : pystr) : pystr :=
  match l with c :: l' => if P c then c :: take_while P l' else [] | [] => [] end.

Definition basename (p : pystr) : pystr :=
  rev (take_while (fun c => negb (ascii_eqb c "/")) (rev p)).

(** ** Section 1 of the source: metadata, signatures, row builder *)

(** [get_existing_signatures(engine, start_date_str)]: the exception
    handler of the function turns a failing query into the empty set, and
    so it does when [pd.to_datetime] (line 105) raises
    [OutOfBoundsDatetime] on a stored instant outside pandas' bounds. The
    strftime of pandas writes the year without leading zeros. *)
Definition get_existing_signatures (query_result : option (list db_row)) : gset sig :=
  match query_result with
  | None => ∅
  | Some rows =>
      if forallb (fun r => pd_in_bounds (db_ts r)) rows
      then list_to_set (map (fun r => (db_asset r, strftime_db (db_ts r), db_serial r)) rows)
      else ∅
  end.

(** The filtering loop of [get_metadata]; [None] stands for an exception
    ([os.path.abspath] of a truthy [SourceFile] that is not a string). *)
Fixpoint clean_meta (archive_abs : pystr) (ms : list meta) : option (list meta) :=
  match ms with
  | [] => Some []
  | m :: ms' =>
      match m_source m with
      | None => clean_meta archive_abs ms'
      | Some src =>
          if py_falsy src then clean_meta archive_abs ms'
          else match src with
               | JStr s =>
                   if startswith s archive_abs then clean_meta archive_abs ms'
                   else option_map (cons m) (clean_meta archive_abs ms')
               | _ => None
               end
      end
  end.

(** [get_metadata(folder)] *)
Definition get_metadata (archive_abs : pystr) (exiftool_out : option (list meta)) : list meta :=
  match exiftool_out with
  | None => []
  | Some ms => match clean_meta archive_abs ms with Some l => l | None => [] end
  end.

(** [process_image(filepath, metadata_entry)]; [None] is the function's
    [return None] (no asset, or an exception inside its [try]). *)
Definition process_image (thermal_ok : pystr -> bool) (filepath : pystr) (m : meta) : option row :=
  let filename := basename filepath in
  match clean_asset_code (get_or (m_desc m) JNull) with
  | None => None
  | Some asset_str =>
      match py_int (get_or (m_serial m) (JInt 0)) with
      | None => None
      | Some serial_int =>
          let raw_ts := py_str (get_or (m_dto m) (JStr [])) in
          match parse_timestamp raw_ts with
          | None => None
          | Some ts_str_db =>
              (* flyr.unpack and the statistics; float() of Emissivity and
                 ObjectDistance (defaults 0.95 and 1.0 when absent) *)
              if thermal_ok filepath
                 && match m_emis m with Some v => py_float_ok v | None => true end
                 && match m_dist m with Some v => py_float_ok v | None => true end
              then Some (mkrow ts_str_db filename serial_int asset_str)
              else None
          end
      end
  end.

(** ** Section 2 of the source: file operations *)

(** [iter_all_jpgs(root_folder)] over the listing of [os.walk]. *)
Definition iter_all_jpgs (archive_abs : pystr) (walk : list (pystr * list pystr)) : list pystr :=
  walk ≫= (fun '(dirpath, filenames) =>
    if startswith dirpath archive_abs then []
    else map (path_join dirpath)
             (filter (fun fname => endswith (py_lower fname) (str ".jpg")) filenames)).

(** ** Section 3 of the source: [run_pipeline] *)

(** Step 1, "Map Metadata": [meta_dict] and [timestamps]. *)
Definition map_metadata (meta_list : list meta) : gmap pystr meta * list pystr :=
  fold_left (fun '(d, ts) m =>
      match m_source m with
      | Some (JStr src) =>
          (<[src := m]> d,
           match m_dto m with
           | Some v => ts ++ [replace_count ":" "-" 2 (py_str v)]
           | None => ts
           end)
      | _ => (d, ts)
      end) meta_list (∅, []).

(** [meta_dict.get(full_path, {})] *)
Definition meta_lookup (meta_dict : gmap pystr meta) (p : pystr) : meta :=
  match meta_dict !! p with Some m => m | None => empty_meta end.

(** The signature the duplicate filter computes for a file (lines 403-417). *)
Definition file_sig (m_data : meta) : sig :=
  let asset := clean_asset_code (get_or (m_desc m_data) (JStr [])) in
  let ts := filter_ts (py_str (get_or (m_dto m_data) (JStr []))) in
  let serial := match py_int (get_or (m_serial m_data) (JInt 0)) with
                | Some z => z | None => 0 end in
  (asset, ts, serial).

(** [asset and ts]: both parts of the signature are truthy. *)
Definition sig_complete (s : sig) : bool :=
  match s with
  | (Some _, _ :: _, _) => true
  | _ => false
  end.

(** Step 3, "Collect files": the duplicate filter. It returns the archive
    calls for duplicates, [files_to_process] and the final working set. *)
Fixpoint collect_files (meta_dict : gmap pystr meta) (existing : gset sig) (paths : list pystr)
  : list event * list pystr * gset sig :=
  match paths with
  | [] => ([], [], existing)
  | full_path :: rest =>
      let current_sig := file_sig (meta_lookup meta_dict full_path) in
      if sig_complete current_sig && bool_decide (current_sig ∈ existing) then
        let '(evs, fwd, ex) := collect_files meta_dict existing rest in
        (EvArchive full_path :: evs, fwd, ex)
      else
        let existing' := if sig_complete current_sig then {[current_sig]} ∪ existing else existing in
        let '(evs, fwd, ex) := collect_files meta_dict existing' rest in
        (evs, full_path :: fwd, ex)
  end.

Definition BATCH_SIZE : nat := 50.

(** [pd.to_datetime] of one stored timestamp string under pandas 2.x
    ([format='mixed']). The strings are [strftime_db] renderings. One with
    a four-digit year is read by pandas' ISO 8601 parser, which on these
    strings reads what [strptime] with the hyphen format reads, and the
    conversion returns when that instant lies within pandas' bounds. Any
    other string (a year below 1000) goes to dateutil. *)
Definition pd_to_datetime_ok (dateutil_ok : pystr -> bool) (s : pystr) : bool :=
  match strptime Strptime.fmt_hyphen s with
  | Some dt => pd_in_bounds dt
  | None => dateutil_ok s
  end.

(** Line 481, [pd.to_datetime(df['Timestamp'], format='mixed')]: it
    returns when every timestamp of the column converts. *)
Definition timestamps_convert (e : env) (rows : list row) : bool :=
  forallb (fun r => pd_to_datetime_ok (env_dateutil_ok e) (r_ts r)) rows.

(** One chunk of step 4: build the rows, archive the files without a row,
    convert the Timestamp column (line 481, outside the [try]), write the
    rows, and archive the written files only if the write returned. The
    flag is [false] when line 481 raises: the exception leaves
    [run_pipeline] after the archive calls of the files without a row. *)
Definition process_chunk (e : env) (meta_dict : gmap pystr meta) (i : nat) (chunk : list pystr)
  : list event * bool :=
  let built := map (fun fpath => (fpath, process_image (env_thermal_ok e) fpath
                                           (meta_lookup meta_dict fpath))) chunk in
  let failed_evs := built ≫= (fun '(fpath, r) =>
                       match r with Some _ => [] | None => [EvArchive fpath] end) in
  let new_rows := built ≫= (fun '(_, r) => match r with Some row => [row] | None => [] end) in
  let uploaded_paths := built ≫= (fun '(fpath, r) =>
                       match r with Some _ => [fpath] | None => [] end) in
  match new_rows with
  | [] => (failed_evs, true)
  | _ :: _ =>
      if timestamps_convert e new_rows then
        if env_write_ok e i
        then (failed_evs ++ EvWrite true uploaded_paths new_rows :: map EvArchive uploaded_paths, true)
        else (failed_evs ++ [EvWrite false uploaded_paths new_rows], true)
      else (failed_evs, false)
  end.

(** [range(0, len(files_to_process), BATCH_SIZE)] *)
Definition chunk_starts (n : nat) : list nat :=
  map (fun k => k * BATCH_SIZE)%nat (seq 0 ((n + BATCH_SIZE - 1) / BATCH_SIZE)).

(** The [for] loop over the chunks starting at [starts]; it stops at a
    chunk whose line 481 raises, and the flag is then [false]. *)
Fixpoint run_chunks (e : env) (meta_dict : gmap pystr meta) (files_to_process : list pystr)
    (starts : list nat) : list event * bool :=
  match starts with
  | [] => ([], true)
  | i :: rest =>
      let '(evs, ok) := process_chunk e meta_dict i (take BATCH_SIZE (drop i files_to_process)) in
      if ok then
        let '(evs', ok') := run_chunks e meta_dict files_to_process rest in (evs ++ evs', ok')
      else (evs, false)
  end.

Definition upload_chunks (e : env) (meta_dict : gmap pystr meta) (files_to_process : list pystr)
  : list event * bool :=
  run_chunks e meta_dict files_to_process (chunk_starts (length files_to_process)).

(** How a pass ends: the [return]s of [run_pipeline]. The handler of
    lines 395-397 is never reached: [get_existing_signatures] does not
    raise. *)
Inductive run_end : Type :=
| NoImages      (* line 373: empty metadata scan *)
| NoTimestamps  (* line 387 *)
| NothingNew    (* line 434 *)
| Done          (* the upload loop ran to its end *)
| Raised.       (* line 481 raised: the exception leaves run_pipeline *)

(** The state of a pass after step 3. *)
Record prepared := mkprep {
  pr_meta_dict : gmap pystr meta;
  pr_seed : gset sig;            (* the working set as seeded from the store *)
  pr_dup_events : list event;
  pr_files : list pystr;         (* files_to_process *)
  pr_final_set : gset sig
}.

Definition prepare (e : env) : run_end + prepared :=
  match get_metadata (env_archive e) (env_exiftool e) with
  | [] => inl NoImages
  | meta_list =>
      let '(meta_dict, timestamps) := map_metadata meta_list in
      match timestamps with
      | [] => inl NoTimestamps
      | t :: ts =>
          let oldest := py_min t ts in
          let query_start := py_take 10 oldest ++ str " 00:00:00" in
          let existing := get_existing_signatures (env_db_query e query_start) in
          let '(evs, files, final) :=
            collect_files meta_dict existing (iter_all_jpgs (env_archive e) (env_walk e)) in
          inr (mkprep meta_dict existing evs files final)
      end
  end.

(** [run_pipeline(db_engine)]: the events of the pass and how it ended. *)
Definition run_pipeline (e : env) : list event * run_end :=
  match prepare e with
  | inl r => ([], r)
  | inr p =>
      match pr_files p with
      | [] => (pr_dup_events p, NothingNew)
      | _ :: _ =>
          let '(evs, ok) := upload_chunks e (pr_meta_dict p) (pr_files p) in
          (pr_dup_events p ++ evs, if ok then Done else Raised)
      end
  end.

(** ** Stability gate and main loop (lines 294-345, 569-577)

    Time is measured in seconds as rationals. *)
Module Gate.

(** A file seen by one [os.walk] of the gate. *)
Record fentry := mkfe {
  fe_name : pystr;
  fe_age : option Q;     (* time.time() - os.path.getmtime(full_path); [None]: OSError *)
  fe_exists : bool;      (* os.path.exists(filepath) in is_file_locked *)
  fe_locked : bool       (* open(filepath, 'ab') raises IOError *)
}.

(** One iteration of the [while] loop. *)
Record snapshot := mksnap {
  sn_elapsed : Q;                        (* time.time() - start_time at the loop test *)
  sn_walk : list (pystr * list fentry)   (* os.walk of the root in that iteration *)
}.

(** [a < b] on rationals. *)
Definition Qltb (a b : Q) : bool := negb (Qle_bool b a).

Inductive gate_event : Type :=
| GProbe (p : pystr)    (* the exclusive-append open of is_file_locked *)
| GSleep (secs : Z).    (* time.sleep(secs) *)

(** [is_file_locked(filepath)]: the result and whether the file was opened. *)
Definition is_file_locked (full_path : pystr) (f : fentry) : bool * list gate_event :=
  if fe_exists f then (fe_locked f, [GProbe full_path]) else (false, []).

(** The body of one iteration: [locked_files] and the probes made. *)
Definition scan_locks (archive_abs : pystr) (walk : list (pystr * list fentry))
  : list pystr * list gate_event :=
  fold_left (fun '(locked, evs) '(dirpath, files) =>
    if startswith dirpath archive_abs then (locked, evs)
    else fold_left (fun '(locked, evs) f =>
           if negb (endswith (py_lower (fe_name f)) (str ".jpg")) then (locked, evs)
           else
             let full_path := path_join dirpath (fe_name f) in
             match fe_age f with
             | None => (locked, evs)
             | Some age =>
                 if Qltb 60 age then (locked, evs)
                 else
                   let '(l, pr) := is_file_locked full_path f in
                   (if l then locked ++ [full_path] else locked, evs ++ pr)
             end) files (locked, evs)) walk ([], []).

(** The [while] loop over the iterations the clock allows. The list of
    snapshots is the run of the loop: an iteration whose test finds the
    elapsed time at or past [timeout] ends it, as does the end of the
    list. *)
Fixpoint wait_loop (archive_abs : pystr) (timeout : Q) (snaps : list snapshot)
  : bool * list gate_event :=
  match snaps with
  | [] => (false, [])
  | sn :: rest =>
      if Qltb (sn_elapsed sn) timeout then
        let '(locked, probes) := scan_locks archive_abs (sn_walk sn) in
        match locked with
        | [] => (true, probes)
        | _ :: _ =>
            let '(b, evs) := wait_loop archive_abs timeout rest in
            (b, probes ++ GSleep 1 :: evs)
        end
      else (false, [])
  end.

(** [wait_for_folder_stability(root_folder)] with its default timeout. *)
Definition wait_for_folder_stability (archive_abs : pystr) (snaps : list snapshot)
  : bool * list gate_event :=
  wait_loop archive_abs 15 snaps.

(** One triggered iteration of the main loop: the gate, then a pass if
    the folder is stable. *)
Definition main_iteration (snaps : list snapshot) (e : env) : list event :=
  if fst (wait_for_folder_stability (env_archive e) snaps) then fst (run_pipeline e) else [].

End Gate.

(** ** [move_to_archive] (lines 348-362) *)

(** [s.rfind(c)] for one character: the last index of [c], or -1. *)
Fixpoint rfind_from (c : ascii) (i : Z) (s : pystr) (found : Z) : Z :=
  match s with
  | [] => found
  | d :: s' => rfind_from c (i + 1) s' (if ascii_eqb d c then i else found)
  end.

Definition rfind (c : ascii) (s : pystr) : Z := rfind_from c 0 s (-1).

(** The [while filenameIndex < dotIndex] loop of [genericpath._splitext],
    run for [n] iterations: [true] when it meets a character other than
    the extension separator (and returns the split). *)
Fixpoint splitext_loop (p : pystr) (filenameIndex : Z) (n : nat) : bool :=
  match n with
  | O => false
  | S n' =>
      if negb (bool_decide (take 1 (drop (Z.to_nat filenameIndex) p) = str "."))
      then true
      else splitext_loop p (filenameIndex + 1) n'
  end.

(** [os.path.splitext(p)] (posixpath: sep "/", no altsep, extsep "."). *)
Definition splitext (p : pystr) : pystr * pystr :=
  let sepIndex := rfind "/" p in
  let dotIndex := rfind "." p in
  if (sepIndex <? dotIndex)
     && splitext_loop p (sepIndex + 1) (Z.to_nat (dotIndex - (sepIndex + 1)))
  then (take (Z.to_nat dotIndex) p, drop (Z.to_nat dotIndex) p)
  else (p, []).

(** What the file system answers to one call of [move_to_archive]. *)
Record fs_world := mkfs {
  fs_exists : pystr -> bool;             (* os.path.exists *)
  fs_now : Z;                            (* int(time.time()) *)
  fs_move_ok : pystr -> pystr -> bool    (* shutil.move(src, dst) returns *)
}.

(** [move_to_archive(filepath)] with [ARCHIVE_FOLDER] given: the result
    and the move made ([Some (src, dst)]). *)
Definition move_to_archive (archive_folder : pystr) (w : fs_world) (filepath : pystr)
  : bool * option (pystr * pystr) :=
  let filename := basename filepath in
  let src := filepath in
  let dst := path_join archive_folder filename in
  let dst := if fs_exists w dst then
               let '(base, ext) := splitext filename in
               path_join archive_folder (base ++ str "_" ++ str_of_Z (fs_now w) ++ ext)
             else dst in
  if fs_move_ok w src dst then (true, Some (src, dst)) else (false, None).

(** ** The file-system event handler (lines 499-515) *)

(** A watchdog event. *)
Record fs_event := mkfsev {
  ev_is_directory : bool;
  ev_src_path : pystr;
  ev_dest_path : pystr
}.

(** [FileTrigger._trigger(path)]: whether [TRIGGER_EVENT.set()] is
    called. *)
Definition file_trigger (archive_abs : pystr) (path : pystr) : bool :=
  if negb (endswith (py_lower path) (str ".jpg")) then false
  else if startswith path archive_abs then false
  else true.

Definition on_created (archive_abs : pystr) (event : fs_event) : bool :=
  if negb (ev_is_directory event) then file_trigger archive_abs (ev_src_path event) else false.

Definition on_moved (archive_abs : pystr) (event : fs_event) : bool :=
  if negb (ev_is_directory event) then file_trigger archive_abs (ev_dest_path event) else false.

(** ** Start-up: [validate_environment] and [init_db_engine] (lines 65-92) *)

(** What the start-up checks find. *)
Record startup := mkstartup {
  su_input_exists : bool;        (* os.path.exists(INPUT_FOLDER) *)
  su_archive_exists : bool;      (* os.path.exists(ARCHIVE_FOLDER) *)
  su_makedirs_ok : bool;         (* os.makedirs(ARCHIVE_FOLDER) raises no OSError *)
  su_which_exiftool : bool;      (* shutil.which(EXIFTOOL_PATH) is truthy *)
  su_exiftool_exists : bool;     (* os.path.exists(EXIFTOOL_PATH) *)
  su_db_pass : option pystr      (* os.getenv("DB_PASS") *)
}.

Inductive startup_effect : Type :=
| MakeDirs.   (* os.makedirs(ARCHIVE_FOLDER) is called *)

(** [validate_environment()]: the result and the calls to [os.makedirs]. *)
Definition validate_environment (s : startup) : bool * list startup_effect :=
  if negb (su_input_exists s) then (false, [])
  else
    let '(ok, effs) := if su_archive_exists s then (true, [])
                       else (su_makedirs_ok s, [MakeDirs]) in
    if negb ok then (false, effs)
    else if negb (su_which_exiftool s) && negb (su_exiftool_exists s) then (false, effs)
    else match su_db_pass s with
         | None | Some [] => (false, effs)
         | Some (_ :: _) => (true, effs)
         end.

(** The UTF-8 encoding of one Latin-1 character. *)
Definition utf8_char (c : ascii) : list Z :=
  let n := code c in
  if n <? 128 then [n] else [192 + n / 64; 128 + n mod 64].

(** [urllib.parse._ALWAYS_SAFE]: ASCII letters, digits and "_.-~". *)
Definition always_safe (b : Z) : bool :=
  ((65 <=? b) && (b <=? 90)) || ((97 <=? b) && (b <=? 122)) || ((48 <=? b) && (b <=? 57))
  || (b =? 95) || (b =? 46) || (b =? 45) || (b =? 126).

Definition hex_digit (v : Z) : ascii := if v <? 10 then chr (48 + v) else chr (55 + v).

(** The quoter of [quote_from_bytes]: the byte itself if safe, else
    ["%XX"] in upper-case hexadecimal. *)
Definition quote_byte (safe : Z -> bool) (b : Z) : pystr :=
  if safe b then [chr b] else ["%"%char; hex_digit (b / 16); hex_digit (b mod 16)].

(** [urllib.parse.quote(string, safe)] for a [str]: the UTF-8 bytes, each
    quoted ([safe] holds the bytes of the [safe] argument). The shortcut
    for all-safe input returns the same text. *)
Definition quote (safe : Z -> bool) (s : pystr) : pystr :=
  match s with
  | [] => []
  | _ :: _ => (s ≫= utf8_char) ≫= quote_byte (fun b => always_safe b || safe b)
  end.

(** [urllib.parse.quote_plus(string)] with [safe=''] for a [str]. *)
Definition quote_plus (s : pystr) : pystr :=
  if negb (existsb (fun c => ascii_eqb c " ") s) then quote (fun _ => false) s
  else map (fun c => if ascii_eqb c " " then "+"%char else c) (quote (fun b => b =? 32) s).

(** [str(v)] for an environment variable read with [os.getenv]. *)
Definition env_str (o : option pystr) : pystr :=
  match o with Some s => s | None => str "None" end.

(** [init_db_engine()]: the URL passed to [create_engine]; [None] is the
    [TypeError] of [quote_plus(None)] when [DB_PASS] is unset. *)
Definition init_db_engine (db_user db_server db_name db_pass : option pystr) : option pystr :=
  match db_pass with
  | None => None
  | Some p =>
      Some (str "mssql+pyodbc://" ++ env_str db_user ++ str ":" ++ quote_plus p ++ str "@" ++
            env_str db_server ++ str "/" ++ env_str db_name ++
            str "?driver=ODBC+Driver+17+for+SQL+Server")
  end.

(** ** Sample inputs *)
Module Samples.

Definition rec (src dto desc : string) (serial : jval) : meta :=
  mkmeta (Some (JStr (str src))) (Some (JStr (str dto))) (Some serial)
         (Some (JStr (str desc))) None None.

(** One file "/in/a.jpg" of asset OVEN1, the store answering with [rows]. *)
Definition one_file_env (dto : string) (rows : option (list db_row)) : env :=
  mkenv (str "/in/arch")
        (Some [rec "/in/a.jpg" dto "Oven 1" (JInt 5)])
        (fun _ => rows)
        [(str "/in", [str "a.jpg"]); (str "/in/arch", [str "old.jpg"])]
        (fun _ => true) (fun _ => true)
        (fun _ => false).

Definition row_a (ts : string) : row := mkrow (str ts) (str "a.jpg") 5 (str "OVEN1").

(** A copy of "/in/a.jpg" and a file whose note has no letter or digit. *)
Definition three_files_env : env :=
  mkenv (str "/in/arch")
        (Some [rec "/in/a.jpg" "2026:01:21 09:44:47.158+02:00" "Oven 1" (JInt 5);
               rec "/in/a (1).jpg" "2026:01:21 09:44:47" "oven1" (JStr (str "5"));
               rec "/in/n.jpg" "2026:01:21 10:00:00" "--" (JInt 5);
               rec "/in/arch/old.jpg" "2026:01:20 08:00:00" "Oven 1" (JInt 5)])
        (fun _ => Some [mkdbrow (Some (str "OVEN2")) (mkdt 2026 1 21 9 44 47) 5])
        [(str "/in", [str "a.jpg"; str "a (1).jpg"; str "n.jpg"; str "z.jpg"]);
         (str "/in/arch", [str "old.jpg"])]
        (fun _ => true) (fun i => Nat.eqb i 0)
        (fun _ => false).


(** A record whose serial number is not an integer. *)
Definition bad_serial_meta : meta :=
  rec "/in/a.jpg" "2026:01:21 09:44:47" "Oven 1" (JStr (str "SN-A7")).

(** Two files of the same instant and serial whose notes "--" and "#"
    both normalize to nothing. *)
Definition twin_no_note_env : env :=
  mkenv (str "/in/arch")
        (Some [rec "/in/n1.jpg" "2026:01:21 10:00:00" "--" (JInt 5);
               rec "/in/n2.jpg" "2026:01:21 10:00:00" "#" (JInt 5)])
        (fun _ => Some [])
        [(str "/in", [str "n1.jpg"; str "n2.jpg"])]
        (fun _ => true) (fun _ => true)
        (fun _ => false).

(** A gate run in which "/in/a.jpg", modified 5 s ago, stays locked
    until the timeout; "/in/old.jpg" was modified 120 s ago. *)
Definition locked_snaps : list Gate.snapshot :=
  let walk := [(str "/in", [Gate.mkfe (str "a.jpg") (Some (inject_Z 5)) true true;
                            Gate.mkfe (str "old.jpg") (Some (inject_Z 120)) true true]);
               (str "/in/arch", [Gate.mkfe (str "b.jpg") (Some (inject_Z 1)) true true])] in
  [Gate.mksnap (inject_Z 0) walk; Gate.mksnap (inject_Z 8) walk; Gate.mksnap (inject_Z 16) walk].

(** The state after step 3 of a pass that gets that far. *)
Definition prepared_of (e : env) : prepared :=
  match prepare e with
  | inr pr => pr
  | inl _ => mkprep ∅ ∅ [] [] ∅
  end.

(** "/in/a.jpg", whose store write fails. *)
Definition failing_write_env : env :=
  mkenv (str "/in/arch")
        (Some [rec "/in/a.jpg" "2026:01:21 09:44:47" "Oven 1" (JInt 5)])
        (fun _ => Some []) [(str "/in", [str "a.jpg"])]
        (fun _ => true) (fun _ => false)
        (fun _ => false).

(** A file "/in/arch2.jpg" beside the archive folder "/in/arch". *)
Definition archive_sibling_env : env :=
  mkenv (str "/in/arch")
        (Some [rec "/in/a.jpg" "2026:01:21 09:44:47" "Oven 1" (JInt 5);
               rec "/in/arch2.jpg" "2026:01:21 09:50:00" "Oven 1" (JInt 5)])
        (fun _ => Some [])
        [(str "/in", [str "a.jpg"; str "arch2.jpg"]); (str "/in/arch", [])]
        (fun _ => true) (fun _ => true)
        (fun _ => false).

(** A file system in which "/in/arch/a.jpg" already exists, at time
    1768981487, where every move succeeds. *)
Definition clash_world : fs_world :=
  mkfs (fun q => bool_decide (q = str "/in/arch/a.jpg")) 1768981487 (fun _ _ => true).


End Samples.

(** * Derived notions used in the statements *)

(** The signature the duplicate filter computes for a path. *)
Definition fsig (d : gmap pystr meta) (p : pystr) : sig := file_sig (meta_lookup d p).

(** The paths [iter_all_jpgs] yields in a pass. *)
Definition listing (e : env) : list pystr := iter_all_jpgs (env_archive e) (env_walk e).

Section ChunkDefs.
Variable e : env.
Variable d : gmap pystr meta.

(** The row [process_image] builds for a path in this pass. *)
Definition rowf (x : pystr) : option row :=
  process_image (env_thermal_ok e) x (meta_lookup d x).

Definition failed_of (c : list pystr) : list event :=
  c ≫= (fun x => match rowf x with Some _ => [] | None => [EvArchive x] end).
Definition rows_of (c : list pystr) : list row :=
  c ≫= (fun x => match rowf x with Some r => [r] | None => [] end).
Definition paths_of (c : list pystr) : list pystr :=
  c ≫= (fun x => match rowf x with Some _ => [x] | None => [] end).

(** The events of the chunks [cs], given as (start index, files), when
    none of them raises. *)
Definition chunk_events (cs : list (nat * list pystr)) : list event :=
  cs ≫= (fun '(i, c) => (process_chunk e d i c).1).

End ChunkDefs.

(** The chunks [files_to_process[i : i + BATCH_SIZE]] of [range(0, n, BATCH_SIZE)]. *)
Definition chunks_of (l : list pystr) : list (nat * list pystr) :=
  map (fun i => (i, take BATCH_SIZE (drop i l))) (chunk_starts (length l)).

(** The locked path and the probes of one file of one [os.walk] entry of
    the gate (the body of the inner loop of [wait_for_folder_stability]). *)
Definition probe_of (dirpath : pystr) (f : Gate.fentry) : list pystr * list Gate.gate_event :=
  if negb (endswith (py_lower (Gate.fe_name f)) (str ".jpg")) then ([], [])
  else
    let full_path := path_join dirpath (Gate.fe_name f) in
    match Gate.fe_age f with
    | None => ([], [])
    | Some age =>
        if Gate.Qltb 60 age then ([], [])
        else let '(l, pr) := Gate.is_file_locked full_path f in
             (if l then [full_path] else [], pr)
    end.

Definition dir_probes (archive_abs : pystr) (entry : pystr * list Gate.fentry)
  : list pystr * list Gate.gate_event :=
  let '(dirpath, files) := entry in
  if startswith dirpath archive_abs then ([], [])
  else (files ≫= (fun f => (probe_of dirpath f).1), files ≫= (fun f => (probe_of dirpath f).2)).

(** The iterations the [while] loop runs: the snapshots up to the first
    one whose elapsed time is not below [timeout]. *)
Fixpoint loop_prefix (timeout : Q) (snaps : list Gate.snapshot) : list Gate.snapshot :=
  match snaps with
  | [] => []
  | sn :: rest => if Gate.Qltb (Gate.sn_elapsed sn) timeout then sn :: loop_prefix timeout rest else []
  end.

(** The first element of a list. *)
Definition hd_opt {A} (l : list A) : option A := match l with x :: _ => Some x | [] => None end.

(** [quote_plus] one character at a time. *)
Definition qp_char (c : ascii) : pystr :=
  if ascii_eqb c " " then ["+"%char] else utf8_char c ≫= quote_byte always_safe.

(** The value of an upper-case hexadecimal digit, as [quote] writes them. *)
Definition hex_val (h : ascii) : Z := if code h <? 65 then code h - 48 else code h - 55.

(** Decoding of what [quote_plus] produces ("+" for a space, "%XX" for a
    byte, two escapes for a character of two UTF-8 bytes). *)
Fixpoint qp_dec (l : pystr) : pystr :=
  match l with
  | [] => []
  | c :: l1 =>
      if ascii_eqb c "+" then " "%char :: qp_dec l1
      else if ascii_eqb c "%" then
        match l1 with
        | h1 :: h2 :: l2 =>
            let b := hex_val h1 * 16 + hex_val h2 in
            if b <? 128 then chr b :: qp_dec l2
            else match l2 with
                 | _ :: h3 :: h4 :: l3 =>
                     chr ((b - 192) * 64 + (hex_val h3 * 16 + hex_val h4 - 128)) :: qp_dec l3
                 | _ => []
                 end
        | _ => []
        end
      else c :: qp_dec l1
  end.

(** The characters an encoded password may contain. *)
Definition url_char (c : ascii) : bool :=
  is_upper_az c || is_lower_az c || is_digit c || existsb (ascii_eqb c) (str "_.-~%+").

(** The files a pass moves to the archive, and those it writes to the
    store, in order. *)
Definition archived_paths (evs : list event) : list pystr :=
  evs ≫= (fun ev => match ev with EvArchive p => [p] | EvWrite _ _ _ => [] end).
Definition written_paths (evs : list event) : list pystr :=
  evs ≫= (fun ev => match ev with EvWrite _ ps _ => ps | EvArchive _ => [] end).

(** Equality of rows and events is decidable. *)
Global Instance row_eq_dec : EqDecision row.
Proof. solve_decision. Defined.
Global Instance event_eq_dec : EqDecision event.
Proof. solve_decision. Defined.

(** * Properties *)

(** ** The duplicate filter *)

Lemma collect_files_perm (d : gmap pystr meta) (ex : gset sig) (l : list pystr) evs fwd fin :
  collect_files d ex l = (evs, fwd, fin) ->
  exists dups, evs = map EvArchive dups /\ l ≡ₚ dups ++ fwd.
Proof.
  revert ex evs fwd fin. induction l as [|p l IH]; intros ex evs fwd fin H; cbn [collect_files] in H.
  - inversion H; subst. exists []. split; [reflexivity | simpl; reflexivity].
  - destruct (sig_complete (file_sig (meta_lookup d p)) && bool_decide _).
    + destruct (collect_files d ex l) as [[evs' fwd'] fin'] eqn:E.
      inversion H; subst. destruct (IH _ _ _ _ E) as (dups & -> & Hp).
      exists (p :: dups). split; [reflexivity|]. simpl. by rewrite Hp.
    + destruct (collect_files d _ l) as [[evs' fwd'] fin'] eqn:E.
      inversion H; subst. destruct (IH _ _ _ _ E) as (dups & -> & Hp).
      exists dups. split; [reflexivity|]. rewrite Hp. by rewrite Permutation_middle.
Qed.

Lemma collect_files_sigs (d : gmap pystr meta) (ex : gset sig) (l : list pystr) evs fwd fin :
  collect_files d ex l = (evs, fwd, fin) ->
  NoDup (filter (fun s => sig_complete s = true) (map (fsig d) fwd)) /\
  (forall p, In p fwd -> sig_complete (fsig d p) = true -> fsig d p ∉ ex).
Proof.
  revert ex evs fwd fin. induction l as [|p l IH]; intros ex evs fwd fin H; cbn [collect_files] in H.
  - inversion H; subst. split; [constructor | intros ? []].
  - destruct (sig_complete (file_sig (meta_lookup d p))) eqn:Hc; simpl in H.
    + destruct (bool_decide (file_sig (meta_lookup d p) ∈ ex)) eqn:Hin.
      * destruct (collect_files d ex l) as [[evs' fwd'] fin'] eqn:E.
        inversion H; subst. exact (IH _ _ _ _ E).
      * apply bool_decide_eq_false in Hin.
        destruct (collect_files d _ l) as [[evs' fwd'] fin'] eqn:E.
        inversion H; subst. destruct (IH _ _ _ _ E) as [Hnd Hnot].
        split.
        -- simpl. unfold fsig at 1. rewrite filter_cons_True by exact Hc.
           constructor; [|exact Hnd].
           intros Hx. apply list_elem_of_filter in Hx as [Hc' Hx].
           apply list_elem_of_In, in_map_iff in Hx as (q & Hq & Hqin).
           apply (Hnot q Hqin); [by rewrite Hq|]. unfold fsig in *. rewrite Hq. set_solver.
        -- intros q [<-|Hq] Hcq; [exact Hin|].
           specialize (Hnot q Hq Hcq). set_solver.
    + destruct (collect_files d ex l) as [[evs' fwd'] fin'] eqn:E.
      inversion H; subst. destruct (IH _ _ _ _ E) as [Hnd Hnot].
      split.
      * simpl. unfold fsig at 1. rewrite filter_cons_False by (rewrite Hc; discriminate).
        exact Hnd.
      * intros q [<-|Hq] Hcq; [unfold fsig in Hcq; congruence|]. exact (Hnot q Hq Hcq).
Qed.

(** The listing the duplicate filter walks in a pass. *)

Lemma prepare_inv (e : env) (pr : prepared) :
  prepare e = inr pr ->
  collect_files (pr_meta_dict pr) (pr_seed pr) (listing e)
    = (pr_dup_events pr, pr_files pr, pr_final_set pr) /\
  exists meta_list ts, get_metadata (env_archive e) (env_exiftool e) = meta_list /\
    map_metadata meta_list = (pr_meta_dict pr, ts) /\ meta_list <> [] /\ ts <> [] /\
    exists q, pr_seed pr = get_existing_signatures (env_db_query e q).
Proof.
  unfold prepare. intros H.
  destruct (get_metadata (env_archive e) (env_exiftool e)) as [|m ms] eqn:Hg; [discriminate|].
  destruct (map_metadata (m :: ms)) as [d ts] eqn:Hm.
  destruct ts as [|t ts]; [discriminate|].
  destruct (collect_files d _ _) as [[evs files] final] eqn:Hc.
  inversion H; subst; clear H. simpl. unfold listing. split; [exact Hc|].
  exists (m :: ms), (t :: ts). repeat split; try done. eexists; reflexivity.
Qed.

(** C1 (as amended). In a pass, among the files forwarded to the
    uploader ([files_to_process]) whose asset and filter timestamp are
    both non-empty, no two have the same signature
    (asset, timestamp string, serial), and none of these signatures is in
    the working set as seeded from the store. *)
Theorem forwarded_signatures_distinct_and_new (e : env) (pr : prepared) :
  prepare e = inr pr ->
  NoDup (filter (fun s => sig_complete s = true) (map (fsig (pr_meta_dict pr)) (pr_files pr))) /\
  (forall p, In p (pr_files pr) -> sig_complete (fsig (pr_meta_dict pr) p) = true ->
             fsig (pr_meta_dict pr) p ∉ pr_seed pr).
Proof.
  intros H. apply prepare_inv in H as [Hc _]. exact (collect_files_sigs _ _ _ _ _ _ Hc).
Qed.

(** C3. When the signature query raises, [get_existing_signatures]
    returns the empty set and the pass goes on: the file is written to the
    store and archived. *)
Theorem store_query_failure_does_not_abort :
  run_pipeline (Samples.one_file_env "2026:01:21 09:44:47" None)
  = ([EvWrite true [str "/in/a.jpg"] [Samples.row_a "2026-01-21 09:44:47"];
      EvArchive (str "/in/a.jpg")], Done).
Proof. vm_compute. reflexivity. Qed.

(** C5. For the hyphen-delimited timestamp "2026-01-21 09:44:47", which the
    row builder accepts and stores as "2026-01-21 09:44:47", the duplicate
    filter's signature timestamp is "2026-01-21 09-44-47". So a file whose
    reading is already in the store under that signature is uploaded a
    second time. *)
Theorem filter_timestamp_differs_from_stored :
  parse_timestamp (str "2026-01-21 09:44:47") = Some (str "2026-01-21 09:44:47") /\
  filter_ts (str "2026-01-21 09:44:47") = str "2026-01-21 09-44-47" /\
  run_pipeline (Samples.one_file_env "2026-01-21 09:44:47"
                  (Some [mkdbrow (Some (str "OVEN1")) (mkdt 2026 1 21 9 44 47) 5]))
  = ([EvWrite true [str "/in/a.jpg"] [Samples.row_a "2026-01-21 09:44:47"];
      EvArchive (str "/in/a.jpg")], Done).
Proof. vm_compute. repeat split. Qed.

(** C6. A record whose serial number "SN-A7" is not an integer builds no
    row ([process_image] returns [None]; the file is archived without
    upload), while the duplicate filter defaults the same serial to 0. *)
Theorem unparsable_serial_drops_row :
  process_image (fun _ => true) (str "/in/a.jpg") Samples.bad_serial_meta = None /\
  file_sig Samples.bad_serial_meta = (Some (str "OVEN1"), str "2026-01-21 09:44:47", 0).
Proof. vm_compute. split; reflexivity. Qed.


(** ** The chunked uploader *)

Lemma bind_map {A B C} (f : A -> B) (g : B -> list C) (l : list A) :
  map f l ≫= g = l ≫= (fun x => g (f x)).
Proof. induction l as [|x l IH]; [reflexivity|]. cbn [map]. rewrite !bind_cons. by rewrite IH. Qed.

Section Chunk.
Variable e : env.
Variable d : gmap pystr meta.


Lemma process_chunk_eq (i : nat) (c : list pystr) :
  process_chunk e d i c =
  match rows_of e d c with
  | [] => (failed_of e d c, true)
  | _ :: _ =>
      if timestamps_convert e (rows_of e d c) then
        if env_write_ok e i
        then (failed_of e d c ++ EvWrite true (paths_of e d c) (rows_of e d c)
                :: map EvArchive (paths_of e d c), true)
        else (failed_of e d c ++ [EvWrite false (paths_of e d c) (rows_of e d c)], true)
      else (failed_of e d c, false)
  end.
Proof. unfold process_chunk, failed_of, rows_of, paths_of, rowf. cbv zeta. rewrite !bind_map. reflexivity. Qed.

(** The case split of a chunk: no row, line 481 raising, a write that
    returns, a write that raises. *)
Ltac chunk_cases i c :=
  rewrite process_chunk_eq;
  destruct (rows_of e d c) as [|?r0 ?rs0] eqn:?Erows;
  [|destruct (timestamps_convert e _) eqn:?Econv;
    [destruct (env_write_ok e i) eqn:?Ewrite|]]; cbn [fst snd].

Lemma failed_of_archive (c : list pystr) (q : pystr) :
  EvArchive q ∈ failed_of e d c <-> q ∈ c /\ rowf e d q = None.
Proof.
  unfold failed_of. rewrite list_elem_of_bind. split.
  - intros (x & Hx & Hc). destruct (rowf e d x) eqn:E; [inversion Hx|].
    apply list_elem_of_singleton in Hx. inversion Hx; subst. done.
  - intros [Hc Hr]. exists q. rewrite Hr. split; [by left | done].
Qed.

Lemma failed_of_no_write (c : list pystr) ok ps rs : EvWrite ok ps rs ∉ failed_of e d c.
Proof.
  unfold failed_of. rewrite list_elem_of_bind. intros (x & Hx & _).
  destruct (rowf e d x); [inversion Hx|]. apply list_elem_of_singleton in Hx. discriminate.
Qed.

Lemma paths_of_elem (c : list pystr) (q : pystr) :
  q ∈ paths_of e d c <-> q ∈ c /\ is_Some (rowf e d q).
Proof.
  unfold paths_of. rewrite list_elem_of_bind. split.
  - intros (x & Hx & Hc). destruct (rowf e d x) eqn:E; [|inversion Hx].
    apply list_elem_of_singleton in Hx. subst. rewrite E. done.
  - intros [Hc [r Hr]]. exists q. rewrite Hr. split; [by left | done].
Qed.

Lemma rows_of_elem (c : list pystr) (r : row) :
  r ∈ rows_of e d c <-> exists q, q ∈ c /\ rowf e d q = Some r.
Proof.
  unfold rows_of. rewrite list_elem_of_bind. split.
  - intros (x & Hx & Hc). destruct (rowf e d x) eqn:E; [|inversion Hx].
    apply list_elem_of_singleton in Hx. subst. eauto.
  - intros (q & Hc & Hr). exists q. rewrite Hr. split; [by left | done].
Qed.

Lemma rows_of_nonempty (c : list pystr) (q : pystr) (r : row) :
  q ∈ c -> rowf e d q = Some r -> rows_of e d c <> [].
Proof.
  intros Hc Hr Hn. assert (r ∈ rows_of e d c) as Hin by (apply rows_of_elem; eauto).
  rewrite Hn in Hin. inversion Hin.
Qed.

Lemma map_archive_elem (l : list pystr) (q : pystr) : EvArchive q ∈ map EvArchive l <-> q ∈ l.
Proof.
  induction l as [|x l IH]; simpl; [split; inversion 1|].
  rewrite !elem_of_cons, IH. split; [intros [H|H]; [inversion H|]|intros [H|H]; [subst|]]; auto.
Qed.

Lemma map_archive_no_write (l : list pystr) ok ps rs : EvWrite ok ps rs ∉ map EvArchive l.
Proof.
  induction l as [|x l IH]; simpl; [inversion 1|]. rewrite elem_of_cons.
  intros [H|H]; [discriminate | exact (IH H)].
Qed.


Lemma chunk_raised_events (i : nat) (c : list pystr) :
  (process_chunk e d i c).2 = false -> (process_chunk e d i c).1 = failed_of e d c.
Proof. chunk_cases i c; done. Qed.

Lemma chunk_failed_events (i : nat) (c : list pystr) :
  exists rest, (process_chunk e d i c).1 = failed_of e d c ++ rest.
Proof. chunk_cases i c; eexists; try done; by rewrite app_nil_r. Qed.

(** What the events of a chunk say about a path. *)
Lemma chunk_archive_mentions (i : nat) (c : list pystr) (q : pystr) :
  EvArchive q ∈ (process_chunk e d i c).1 ->
  q ∈ c /\ (rowf e d q = None \/ (env_write_ok e i = true /\ is_Some (rowf e d q))).
Proof.
  chunk_cases i c; intros H.
  - apply failed_of_archive in H. tauto.
  - apply elem_of_app in H as [H|H]; [apply failed_of_archive in H; tauto|].
    apply elem_of_cons in H as [H|H]; [discriminate|].
    apply map_archive_elem, paths_of_elem in H. tauto.
  - apply elem_of_app in H as [H|H]; [apply failed_of_archive in H; tauto|].
    apply list_elem_of_singleton in H. discriminate.
  - apply failed_of_archive in H. tauto.
Qed.

Lemma chunk_write_mentions (i : nat) (c : list pystr) ok ps rs :
  EvWrite ok ps rs ∈ (process_chunk e d i c).1 ->
  ok = env_write_ok e i /\ (forall q, q ∈ ps -> q ∈ c /\ is_Some (rowf e d q)).
Proof.
  pose proof (failed_of_no_write c ok ps rs).
  pose proof (map_archive_no_write (paths_of e d c) ok ps rs).
  chunk_cases i c; rewrite ?elem_of_app, ?elem_of_cons, ?list_elem_of_singleton; intros Hw.
  - contradiction.
  - destruct Hw as [?|[Hw|?]]; [contradiction| |contradiction].
    inversion Hw; subst. split; [congruence|]. intros q Hq. exact (proj1 (paths_of_elem c q) Hq).
  - destruct Hw as [?|[Hw|Hw]]; [contradiction| |inversion Hw].
    inversion Hw; subst. split; [congruence|]. intros q Hq. exact (proj1 (paths_of_elem c q) Hq).
  - contradiction.
Qed.

(** A built file of a chunk that does not raise. *)
Lemma chunk_built_file (i : nat) (c : list pystr) (q : pystr) (r : row) :
  q ∈ c -> rowf e d q = Some r -> (process_chunk e d i c).2 = true ->
  (EvArchive q ∈ (process_chunk e d i c).1 <-> env_write_ok e i = true) /\
  exists ps rs, EvWrite (env_write_ok e i) ps rs ∈ (process_chunk e d i c).1 /\ q ∈ ps.
Proof.
  intros Hc Hr Hok. pose proof (rows_of_nonempty c q r Hc Hr) as Hne.
  assert (q ∈ paths_of e d c) as Hp by (apply paths_of_elem; rewrite Hr; done).
  split.
  - split.
    + intros H. apply chunk_archive_mentions in H as [_ [H|[H _]]]; [congruence|exact H].
    + intros W. revert Hok. chunk_cases i c; try done; try congruence.
      intros _. rewrite elem_of_app, elem_of_cons, map_archive_elem. auto.
  - exists (paths_of e d c), (rows_of e d c). split; [|exact Hp].
    revert Hok. chunk_cases i c; try done; intros _; rewrite <- Erows;
      rewrite elem_of_app, ?elem_of_cons, ?list_elem_of_singleton; auto.
Qed.


Lemma chunk_events_archive (cs : list (nat * list pystr)) (q : pystr) :
  EvArchive q ∈ chunk_events e d cs -> q ∈ cs ≫= snd.
Proof.
  unfold chunk_events. rewrite !list_elem_of_bind. intros ([i c] & H & Hin).
  apply chunk_archive_mentions in H as [Hq _]. exists (i, c). done.
Qed.

Lemma chunk_events_write (cs : list (nat * list pystr)) ok ps rs (q : pystr) :
  EvWrite ok ps rs ∈ chunk_events e d cs -> q ∈ ps -> q ∈ cs ≫= snd.
Proof.
  unfold chunk_events. rewrite !list_elem_of_bind. intros ([i c] & H & Hin) Hq.
  apply chunk_write_mentions in H as [_ H]. exists (i, c). split; [|done]. by apply H.
Qed.



Lemma chunk_events_app (cs1 cs2 : list (nat * list pystr)) :
  chunk_events e d (cs1 ++ cs2) = chunk_events e d cs1 ++ chunk_events e d cs2.
Proof. unfold chunk_events. apply bind_app. Qed.

Lemma chunk_events_prefix (cs1 cs : list (nat * list pystr)) (x : event) :
  cs1 `prefix_of` cs -> x ∈ chunk_events e d cs1 -> x ∈ chunk_events e d cs.
Proof.
  intros [cs2 ->] H. rewrite chunk_events_app, elem_of_app. by left.
Qed.

(** The loop over chunks: its events are those of the chunks up to the
    first one that raises (included), and it runs to its end exactly when
    no chunk raises. *)
Lemma run_chunks_events (l : list pystr) (starts : list nat) :
  let cs := map (fun i => (i, take BATCH_SIZE (drop i l))) starts in
  exists cs1, cs1 `prefix_of` cs /\
    (run_chunks e d l starts).1 = chunk_events e d cs1 /\
    ((run_chunks e d l starts).2 = true <->
       forall i c, (i, c) ∈ cs -> (process_chunk e d i c).2 = true) /\
    ((run_chunks e d l starts).2 = true -> cs1 = cs).
Proof.
  induction starts as [|i starts IH]; cbn zeta in *.
  { exists []. split; [done|]. split; [done|]. split; [|done]. split; [intros _ i c H; inversion H|done]. }
  destruct IH as (cs1 & Hp & He & Hok & Hall). cbn [run_chunks map].
  destruct (process_chunk e d i (take BATCH_SIZE (drop i l))) as [evs ok] eqn:Ec.
  destruct ok.
  - destruct (run_chunks e d l starts) as [evs' ok'] eqn:Er. cbn [fst snd] in *.
    exists ((i, take BATCH_SIZE (drop i l)) :: cs1). split; [by apply prefix_cons|].
    split.
    + unfold chunk_events. rewrite bind_cons. fold (chunk_events e d cs1). rewrite <- He.
      cbv beta iota. by rewrite Ec.
    + split; [|intros H; by rewrite Hall].
      rewrite Hok. split.
      * intros H i' c' Hin. apply elem_of_cons in Hin as [Hin|Hin]; [|by apply H].
        inversion Hin; subst. by rewrite Ec.
      * intros H i' c' Hin. apply H. by right.
  - cbn [fst snd]. exists [(i, take BATCH_SIZE (drop i l))].
    split; [apply prefix_cons, prefix_nil|]. split.
    + unfold chunk_events. rewrite bind_singleton. cbv beta iota. by rewrite Ec.
    + split; [|discriminate]. split; [discriminate|].
      intros H. specialize (H i _ ltac:(by left)). by rewrite Ec in H.
Qed.

End Chunk.

(** The chunks the loop runs over. *)
Lemma upload_chunks_events (e : env) (d : gmap pystr meta) (l : list pystr) :
  exists cs1, cs1 `prefix_of` chunks_of l /\
    (upload_chunks e d l).1 = chunk_events e d cs1 /\
    ((upload_chunks e d l).2 = true <->
       forall i c, (i, c) ∈ chunks_of l -> (process_chunk e d i c).2 = true) /\
    ((upload_chunks e d l).2 = true -> cs1 = chunks_of l).
Proof. exact (run_chunks_events e d l (chunk_starts (length l))). Qed.

Lemma upload_event (e : env) (d : gmap pystr meta) (l : list pystr) (x : event) :
  x ∈ (upload_chunks e d l).1 -> x ∈ chunk_events e d (chunks_of l).
Proof.
  destruct (upload_chunks_events e d l) as (cs1 & Hp & -> & _). by apply chunk_events_prefix.
Qed.

Lemma upload_done (e : env) (d : gmap pystr meta) (l : list pystr) :
  (upload_chunks e d l).2 = true -> (upload_chunks e d l).1 = chunk_events e d (chunks_of l).
Proof.
  destruct (upload_chunks_events e d l) as (cs1 & _ & -> & _ & Hall). intros H. by rewrite Hall.
Qed.

Lemma chunks_prefix (l : list pystr) (n : nat) :
  map (fun k => k * BATCH_SIZE)%nat (seq 0 n) ≫= (fun i => take BATCH_SIZE (drop i l))
  = take (n * BATCH_SIZE) l.
Proof.
  induction n as [|n IH]; [reflexivity|].
  rewrite seq_S, map_app, bind_app, IH. simpl. rewrite app_nil_r, take_take_drop.
  f_equal. unfold BATCH_SIZE. lia.
Qed.

(** The chunks cover [files_to_process] exactly, in order. *)
Lemma chunks_cover (l : list pystr) : chunks_of l ≫= snd = l.
Proof.
  unfold chunks_of, chunk_starts. rewrite bind_map. cbn [snd].
  rewrite chunks_prefix. apply take_ge.
  pose proof (Nat.div_mod (length l + BATCH_SIZE - 1) BATCH_SIZE ltac:(unfold BATCH_SIZE; lia)).
  pose proof (Nat.mod_upper_bound (length l + BATCH_SIZE - 1) BATCH_SIZE ltac:(unfold BATCH_SIZE; lia)).
  unfold BATCH_SIZE in *. lia.
Qed.

(** The events of a pass that gets past step 2. *)
Lemma run_pipeline_prepared (e : env) (pr : prepared) :
  prepare e = inr pr ->
  fst (run_pipeline e) =
    pr_dup_events pr ++ match pr_files pr with
                        | [] => []
                        | _ :: _ => (upload_chunks e (pr_meta_dict pr) (pr_files pr)).1
                        end.
Proof.
  intros H. unfold run_pipeline. rewrite H.
  destruct (pr_files pr); simpl; [by rewrite app_nil_r|].
  by destruct (upload_chunks _ _ _).
Qed.

(** How a pass that gets past step 2 with files to process ends. *)
Lemma run_pipeline_end (e : env) (pr : prepared) :
  prepare e = inr pr -> pr_files pr <> [] ->
  snd (run_pipeline e) = if (upload_chunks e (pr_meta_dict pr) (pr_files pr)).2 then Done else Raised.
Proof.
  intros H Hne. unfold run_pipeline. rewrite H.
  destruct (pr_files pr); [done|]. by destruct (upload_chunks _ _ _).
Qed.

(** Split of the listing into duplicates and [files_to_process]. *)
Lemma prepared_split (e : env) (pr : prepared) :
  prepare e = inr pr ->
  exists dups, pr_dup_events pr = map EvArchive dups /\ listing e ≡ₚ dups ++ pr_files pr.
Proof. intros H. apply prepare_inv in H as [Hc _]. exact (collect_files_perm _ _ _ _ _ _ Hc). Qed.





(** ** Files without an asset *)

Lemma chunk_events_unbuilt (e : env) (d : gmap pystr meta) (cs : list (nat * list pystr)) (p : pystr) :
  rowf e d p = None ->
  (p ∈ cs ≫= snd -> EvArchive p ∈ chunk_events e d cs) /\
  (forall ok ps rs, EvWrite ok ps rs ∈ chunk_events e d cs -> p ∉ ps).
Proof.
  intros Hr. split.
  - rewrite list_elem_of_bind. intros ([i c] & Hp & Hin). unfold chunk_events.
    rewrite list_elem_of_bind. exists (i, c). split; [|done].
    assert (EvArchive p ∈ failed_of e d c) as Hf by (apply failed_of_archive; done).
    destruct (chunk_failed_events e d i c) as [rest ->]. apply elem_of_app. by left.
  - intros ok ps rs Hx Hp. unfold chunk_events in Hx. rewrite list_elem_of_bind in Hx.
    destruct Hx as ([i c] & Hx & _). apply chunk_write_mentions in Hx as [_ Hx].
    destruct (Hx p Hp) as [_ Hs]. rewrite Hr in Hs. by destruct Hs.
Qed.

(** A path whose signature is incomplete is forwarded, is not archived as
    a duplicate, and leaves the working set and the other decisions as
    they are. *)
Lemma collect_files_incomplete (d : gmap pystr meta) (ex : gset sig) (l : list pystr) (p : pystr)
      evs fwd fin :
  sig_complete (fsig d p) = false ->
  collect_files d ex l = (evs, fwd, fin) ->
  (p ∈ l -> p ∈ fwd) /\ (EvArchive p ∉ evs) /\
  collect_files d ex (filter (fun q => q <> p) l) = (evs, filter (fun q => q <> p) fwd, fin).
Proof.
  intros Hp. revert ex evs fwd fin.
  induction l as [|x l IH]; intros ex evs fwd fin H; cbn [collect_files] in H.
  - inversion H; subst. split; [inversion 1|split; [inversion 1|reflexivity]].
  - destruct (decide (x = p)) as [->|Hxp].
    + unfold fsig in Hp. rewrite Hp in H. simpl in H.
      destruct (collect_files d ex l) as [[evs' fwd'] fin'] eqn:E.
      inversion H; subst. destruct (IH _ _ _ _ E) as (_ & Hn & Hf).
      split; [intros _; by left|]. split; [exact Hn|].
      rewrite filter_cons_False by (intros C; by apply C).
      rewrite filter_cons_False by (intros C; by apply C). exact Hf.
    + rewrite filter_cons_True by exact Hxp.
      destruct (sig_complete (file_sig (meta_lookup d x)) && bool_decide _) eqn:Hb.
      * destruct (collect_files d ex l) as [[evs' fwd'] fin'] eqn:E.
        inversion H; subst. destruct (IH _ _ _ _ E) as (Hin & Hn & Hf).
        split; [intros Hx; apply elem_of_cons in Hx as [Hx|Hx]; [congruence|by apply Hin]|].
        split; [rewrite elem_of_cons; intros [C|C]; [inversion C; congruence|contradiction]|].
        cbn [collect_files]. rewrite Hb, Hf. reflexivity.
      * destruct (collect_files d _ l) as [[evs' fwd'] fin'] eqn:E.
        inversion H; subst. destruct (IH _ _ _ _ E) as (Hin & Hn & Hf).
        split; [intros Hx; apply elem_of_cons in Hx as [Hx|Hx]; [congruence|right; by apply Hin]|].
        split; [exact Hn|].
        cbn [collect_files]. rewrite Hb, Hf. rewrite filter_cons_True by exact Hxp. reflexivity.
Qed.

Lemma no_asset_defaults (o : option jval) :
  clean_asset_code (get_or o JNull) = None -> clean_asset_code (get_or o (JStr [])) = None.
Proof. destruct o; simpl; [done|]. intros _. reflexivity. Qed.

Lemma no_asset_facts (e : env) (d : gmap pystr meta) (p : pystr) :
  clean_asset_code (get_or (m_desc (meta_lookup d p)) JNull) = None ->
  rowf e d p = None /\ sig_complete (fsig d p) = false.
Proof.
  intros H. split.
  - unfold rowf, process_image. by rewrite H.
  - unfold fsig, file_sig, sig_complete. by rewrite (no_asset_defaults _ H).
Qed.

Lemma no_asset_pass (e : env) (pr : prepared) (p : pystr) :
  prepare e = inr pr ->
  clean_asset_code (get_or (m_desc (meta_lookup (pr_meta_dict pr) p)) JNull) = None ->
  (forall ok ps rs, EvWrite ok ps rs ∈ fst (run_pipeline e) -> p ∉ ps) /\
  (p ∈ listing e -> p ∈ pr_files pr /\ (EvArchive p ∉ pr_dup_events pr) /\
     (snd (run_pipeline e) = Done \/ snd (run_pipeline e) = Raised) /\
     (snd (run_pipeline e) = Done -> EvArchive p ∈ fst (run_pipeline e))).
Proof.
  intros H Hn. destruct (no_asset_facts e _ p Hn) as [Hr Hs].
  destruct (prepared_split e pr H) as (dups & Hdup & _).
  pose proof (prepare_inv e pr H) as [Hc _].
  destruct (collect_files_incomplete _ _ _ p _ _ _ Hs Hc) as (Hfw & Hnd & _).
  destruct (chunk_events_unbuilt e (pr_meta_dict pr) (chunks_of (pr_files pr)) p Hr) as [Ha Hw].
  rewrite chunks_cover in Ha. split.
  - rewrite (run_pipeline_prepared e pr H). intros ok ps rs Hx. apply elem_of_app in Hx as [Hx|Hx].
    + rewrite Hdup in Hx. by apply map_archive_no_write in Hx.
    + destruct (pr_files pr); [inversion Hx|].
      apply upload_event in Hx. exact (Hw _ _ _ Hx).
  - intros Hl. specialize (Hfw Hl). split; [done|]. split; [done|].
    assert (pr_files pr <> []) as Hne by (intros E; rewrite E in Hfw; inversion Hfw).
    pose proof (run_pipeline_end e pr H Hne) as Hend. split.
    + rewrite Hend. destruct (upload_chunks _ _ _).2; auto.
    + rewrite Hend. destruct (upload_chunks _ _ _).2 eqn:Eu; [intros _|discriminate].
      rewrite (run_pipeline_prepared e pr H). apply elem_of_app. right.
      destruct (pr_files pr) eqn:Ef; [done|]. rewrite <- Ef in *.
      rewrite (upload_done _ _ _ Eu). by apply Ha.
Qed.


(** C10. A listed file for which the metadata scan returned no record, in
    a pass that gets past the metadata and timestamp checks: it is
    forwarded and not archived as a duplicate; the duplicate filter over
    the listing without it takes the same decisions and ends with the
    same working set (it adds no signature); it is part of no store
    write; the pass either completes or raises at line 481, and once it
    completes the file has been archived. *)
Theorem unmatched_file_archived_without_upload (e : env) (pr : prepared) (p : pystr) :
  prepare e = inr pr -> p ∈ listing e -> pr_meta_dict pr !! p = None ->
  p ∈ pr_files pr /\ (EvArchive p ∉ pr_dup_events pr) /\
  collect_files (pr_meta_dict pr) (pr_seed pr) (filter (fun q => q <> p) (listing e))
    = (pr_dup_events pr, filter (fun q => q <> p) (pr_files pr), pr_final_set pr) /\
  (forall ok ps rs, EvWrite ok ps rs ∈ fst (run_pipeline e) -> p ∉ ps) /\
  (snd (run_pipeline e) = Done \/ snd (run_pipeline e) = Raised) /\
  (snd (run_pipeline e) = Done -> EvArchive p ∈ fst (run_pipeline e)).
Proof.
  intros H Hp Hm.
  assert (Hn : clean_asset_code (get_or (m_desc (meta_lookup (pr_meta_dict pr) p)) JNull) = None)
    by (unfold meta_lookup; rewrite Hm; reflexivity).
  destruct (no_asset_pass e pr p H Hn) as [Hw Hl]. destruct (Hl Hp) as (Hf & Hd & Hend & Ha).
  destruct (no_asset_facts e _ p Hn) as [_ Hs].
  pose proof (prepare_inv e pr H) as [Hc _].
  destruct (collect_files_incomplete _ _ _ p _ _ _ Hs Hc) as (_ & _ & Hrem).
  repeat split; try done.
Qed.

(** ** Paths under the archive folder *)

Lemma startswith_prefix (s p : pystr) : startswith s p = true <-> p `prefix_of` s.
Proof.
  revert s. induction p as [|c p IH]; intros s.
  - split; [intros _; apply prefix_nil|intros _; by destruct s].
  - destruct s as [|d s]; simpl.
    + split; [discriminate|]. intros [k Hk]. discriminate.
    + rewrite andb_true_iff, IH. unfold ascii_eqb. rewrite Ascii.eqb_eq. split.
      * intros [-> Hp]. by apply prefix_cons.
      * intros Hp. pose proof (prefix_cons_inv_1 _ _ _ _ Hp) as ->.
        apply prefix_cons_inv_2 in Hp. done.
Qed.

(** If [x ++ y] lies under [a] (starts with [a ++ "/"]) and [y] has no
    separator, then [a] is a prefix of [x]. *)
Lemma under_prefix (a x y : pystr) :
  (a ++ str "/") `prefix_of` (x ++ y) -> "/"%char ∉ y -> a `prefix_of` x.
Proof.
  intros [k Hk] Hy. rewrite <- app_assoc in Hk. symmetry in Hk.
  apply app_eq_app in Hk as [m [[_ Hm]|[Hx _]]].
  - destruct Hy. rewrite Hm. apply elem_of_app. right. by left.
  - by exists m.
Qed.

Lemma path_join_under (a dir f : pystr) :
  startswith dir a = false -> "/"%char ∉ f ->
  startswith (path_join dir f) (a ++ str "/") = false.
Proof.
  intros Hd Hf. destruct (startswith (path_join dir f) (a ++ str "/")) eqn:E; [|done].
  exfalso. apply startswith_prefix in E. unfold path_join in E.
  destruct (endswith dir (str "/")).
  - apply under_prefix in E; [|done]. apply startswith_prefix in E. congruence.
  - rewrite app_assoc in E.
    assert (Hp : a `prefix_of` (dir ++ str "/")) by exact (under_prefix _ _ f E Hf).
    destruct Hp as [k Hk]. destruct k as [|c k] using rev_ind.
    + rewrite app_nil_r in Hk. subst a.
      apply prefix_app_inv in E. destruct E as [k' Hk'].
      destruct Hf. rewrite Hk'. by left.
    + rewrite app_assoc in Hk. apply app_inj_tail in Hk as [Hk _].
      assert (startswith dir a = true) by (apply startswith_prefix; by exists k). congruence.
Qed.

Lemma startswith_app (s a b : pystr) : startswith s (a ++ b) = true -> startswith s a = true.
Proof. rewrite !startswith_prefix. intros [k ->]. exists (b ++ k). by rewrite app_assoc. Qed.

Lemma clean_meta_sources (a : pystr) (ms l : list meta) (m : meta) :
  clean_meta a ms = Some l -> m ∈ l ->
  exists s, m_source m = Some (JStr s) /\ startswith s a = false.
Proof.
  revert l. induction ms as [|m' ms IH]; intros l H Hm; simpl in H.
  - inversion H; subst. inversion Hm.
  - destruct (m_source m') as [src|] eqn:Es; [|exact (IH l H Hm)].
    destruct (py_falsy src); [exact (IH l H Hm)|].
    destruct src as [| | |s]; try discriminate.
    destruct (startswith s a) eqn:Ea; [exact (IH l H Hm)|].
    destruct (clean_meta a ms) as [l'|]; [|discriminate]. simpl in H. inversion H; subst.
    apply elem_of_cons in Hm as [->|Hm]; [by exists s|]. exact (IH l' eq_refl Hm).
Qed.

Lemma get_metadata_sources (a : pystr) (out : option (list meta)) (m : meta) :
  m ∈ get_metadata a out -> exists s, m_source m = Some (JStr s) /\ startswith s a = false.
Proof.
  unfold get_metadata. destruct out as [ms|]; [|inversion 1].
  destruct (clean_meta a ms) as [l|] eqn:E; [|inversion 1]. intros Hm. exact (clean_meta_sources a ms l m E Hm).
Qed.

Lemma map_metadata_keys (ms : list meta) (k : pystr) (v : meta) :
  (map_metadata ms).1 !! k = Some v -> exists m, m ∈ ms /\ m_source m = Some (JStr k).
Proof.
  assert (Hgen : forall (d0 : gmap pystr meta) (ts0 : list pystr), (fold_left (fun '(d, ts) m =>
      match m_source m with
      | Some (JStr src) =>
          (<[src := m]> d,
           match m_dto m with
           | Some v => ts ++ [replace_count ":" "-" 2 (py_str v)]
           | None => ts
           end)
      | _ => (d, ts)
      end) ms (d0, ts0)).1 !! k = Some v ->
      d0 !! k = Some v \/ exists m, m ∈ ms /\ m_source m = Some (JStr k)).
  { induction ms as [|m ms IH]; intros d0 ts0 H; simpl in H; [by left|].
    destruct (m_source m) as [[| | |src]|] eqn:Es;
      try (destruct (IH _ _ H) as [?|(m' & ? & ?)]; [by left|right; exists m'; split; [by right|done]]).
    destruct (IH _ _ H) as [Hd|(m' & ? & ?)]; [|right; exists m'; split; [by right|done]].
    destruct (decide (src = k)) as [->|Hne].
    - right. exists m. split; [by left|done].
    - left. by rewrite lookup_insert_ne in Hd. }
  intros H. destruct (Hgen ∅ [] H) as [Hd|Hm]; [|exact Hm].
  by rewrite lookup_empty in Hd.
Qed.

Lemma iter_all_jpgs_elem (a : pystr) (walk : list (pystr * list pystr)) (p : pystr) :
  p ∈ iter_all_jpgs a walk ->
  exists dir fs f, (dir, fs) ∈ walk /\ f ∈ fs /\ startswith dir a = false /\ p = path_join dir f.
Proof.
  unfold iter_all_jpgs. rewrite list_elem_of_bind. intros ([dir fs] & Hp & Hw).
  destruct (startswith dir a) eqn:Ed; [inversion Hp|].
  apply list_elem_of_In, in_map_iff in Hp as (f & <- & Hf). apply list_elem_of_In in Hf.
  apply list_elem_of_filter in Hf as [_ Hf]. exists dir, fs, f. done.
Qed.

(** Every path an event of a pass names is in the listing of that pass. *)
Lemma run_events_listed (e : env) (q : pystr) :
  (EvArchive q ∈ fst (run_pipeline e) -> q ∈ listing e) /\
  (forall ok ps rs, EvWrite ok ps rs ∈ fst (run_pipeline e) -> q ∈ ps -> q ∈ listing e).
Proof.
  destruct (prepare e) as [r|pr] eqn:H.
  - unfold run_pipeline. rewrite H. split; [inversion 1|intros ??? Hx; inversion Hx].
  - destruct (prepared_split e pr H) as (dups & Hdup & Hperm).
    rewrite (run_pipeline_prepared e pr H), Hdup, Hperm. split.
    + intros Hx. apply elem_of_app in Hx as [Hx|Hx].
      * apply map_archive_elem in Hx. apply elem_of_app. by left.
      * apply elem_of_app. right. destruct (pr_files pr) as [|f fs]; [inversion Hx|].
        apply upload_event in Hx. apply chunk_events_archive in Hx.
        by rewrite chunks_cover in Hx.
    + intros ok ps rs Hx Hq. apply elem_of_app in Hx as [Hx|Hx].
      * by apply map_archive_no_write in Hx.
      * rewrite Hperm. apply elem_of_app. right. destruct (pr_files pr) as [|f fs]; [inversion Hx|].
        apply upload_event in Hx. apply (chunk_events_write _ _ _ _ _ _ q) in Hx; [|done].
        by rewrite chunks_cover in Hx.
Qed.

(** C9. Let the file names [os.walk] reports contain no separator. A path
    under the archive folder (starting with the archive path and "/") is
    the [SourceFile] of no record [get_metadata] returns, is no key of the
    metadata mapping built from them, is not among the files
    [iter_all_jpgs] yields, and no event of the pass (archive move or
    store write) names it. *)
Theorem archived_paths_never_scanned (e : env) (p : pystr) :
  Forall (fun df => Forall (fun f => "/"%char ∉ f) df.2) (env_walk e) ->
  startswith p (env_archive e ++ str "/") = true ->
  (forall m, m ∈ get_metadata (env_archive e) (env_exiftool e) -> m_source m <> Some (JStr p)) /\
  (map_metadata (get_metadata (env_archive e) (env_exiftool e))).1 !! p = None /\
  (p ∉ listing e) /\
  (EvArchive p ∉ fst (run_pipeline e)) /\
  (forall ok ps rs, EvWrite ok ps rs ∈ fst (run_pipeline e) -> p ∉ ps).
Proof.
  intros Hw Hp.
  assert (Hm : forall m, m ∈ get_metadata (env_archive e) (env_exiftool e) ->
                         m_source m <> Some (JStr p)).
  { intros m Hm Hs. destruct (get_metadata_sources _ _ m Hm) as (s & Hs' & Ha).
    rewrite Hs in Hs'. inversion Hs'; subst s.
    apply startswith_app in Hp. congruence. }
  assert (Hl : p ∉ listing e).
  { intros Hl. apply iter_all_jpgs_elem in Hl as (dir & fs & f & Hd & Hf & Hs & ->).
    rewrite Forall_forall in Hw. specialize (Hw _ Hd). simpl in Hw.
    rewrite Forall_forall in Hw. rewrite (path_join_under _ _ _ Hs (Hw f Hf)) in Hp.
    discriminate. }
  destruct (run_events_listed e p) as [Ha Hwr].
  split; [exact Hm|]. split; [|split; [exact Hl|split]].
  - destruct ((map_metadata (get_metadata (env_archive e) (env_exiftool e))).1 !! p) as [v|] eqn:E;
      [|done].
    apply map_metadata_keys in E as (m & Hin & Hs). destruct (Hm m Hin Hs).
  - intros Hx. exact (Hl (Ha Hx)).
  - intros ok ps rs Hx Hq. exact (Hl (Hwr ok ps rs Hx Hq)).
Qed.

(** ** The stability gate *)

Lemma scan_locks_inner (dirpath : pystr) (files : list Gate.fentry) (L : list pystr) (E : list Gate.gate_event) :
  fold_left (fun '(locked, evs) f =>
           if negb (endswith (py_lower (Gate.fe_name f)) (str ".jpg")) then (locked, evs)
           else
             let full_path := path_join dirpath (Gate.fe_name f) in
             match Gate.fe_age f with
             | None => (locked, evs)
             | Some age =>
                 if Gate.Qltb 60 age then (locked, evs)
                 else
                   let '(l, pr) := Gate.is_file_locked full_path f in
                   (if l then locked ++ [full_path] else locked, evs ++ pr)
             end) files (L, E)
  = (L ++ files ≫= (fun f => (probe_of dirpath f).1), E ++ files ≫= (fun f => (probe_of dirpath f).2)).
Proof.
  match goal with |- fold_left ?g _ _ = _ => set (G := g) end.
  assert (Hs : forall L E f, G (L, E) f = (L ++ (probe_of dirpath f).1, E ++ (probe_of dirpath f).2)).
  { intros L' E' f. subst G. unfold probe_of. cbn beta iota.
    destruct (negb _); [by rewrite !app_nil_r|].
    destruct (Gate.fe_age f) as [age|]; [|by rewrite !app_nil_r].
    destruct (Gate.Qltb 60 age); [by rewrite !app_nil_r|].
    unfold Gate.is_file_locked. destruct (Gate.fe_exists f), (Gate.fe_locked f); simpl;
      by rewrite ?app_nil_r. }
  revert L E. induction files as [|f files IH]; intros L E.
  - simpl. by rewrite !app_nil_r.
  - cbn [fold_left]. rewrite Hs, IH, !bind_cons. by rewrite !app_assoc.
Qed.

Lemma scan_locks_eq (a : pystr) (walk : list (pystr * list Gate.fentry)) :
  Gate.scan_locks a walk = (walk ≫= (fun x => (dir_probes a x).1), walk ≫= (fun x => (dir_probes a x).2)).
Proof.
  unfold Gate.scan_locks. match goal with |- fold_left ?g _ _ = _ => set (G := g) end.
  assert (Hs : forall L E x, G (L, E) x = (L ++ (dir_probes a x).1, E ++ (dir_probes a x).2)).
  { intros L E [dir files]. subst G. unfold dir_probes. cbn beta iota.
    destruct (startswith dir a); [by rewrite !app_nil_r|]. apply scan_locks_inner. }
  assert (Hg : forall L E, fold_left G walk (L, E) =
             (L ++ walk ≫= (fun x => (dir_probes a x).1), E ++ walk ≫= (fun x => (dir_probes a x).2))).
  { induction walk as [|x walk IH]; intros L E.
    - simpl. by rewrite !app_nil_r.
    - cbn [fold_left]. rewrite Hs, IH, !bind_cons. by rewrite !app_assoc. }
  by rewrite Hg.
Qed.

(** What one file contributes, spelled out. *)
Lemma probe_of_spec (dir : pystr) (f : Gate.fentry) (q : pystr) :
  (Gate.GProbe q ∈ (probe_of dir f).2 <->
     endswith (py_lower (Gate.fe_name f)) (str ".jpg") = true /\
     (exists age, Gate.fe_age f = Some age /\ (age <= 60)%Q) /\
     Gate.fe_exists f = true /\ q = path_join dir (Gate.fe_name f)) /\
  (q ∈ (probe_of dir f).1 <->
     endswith (py_lower (Gate.fe_name f)) (str ".jpg") = true /\
     (exists age, Gate.fe_age f = Some age /\ (age <= 60)%Q) /\
     Gate.fe_exists f = true /\ Gate.fe_locked f = true /\ q = path_join dir (Gate.fe_name f)).
Proof.
  unfold probe_of. destruct (endswith _ _) eqn:Ej; simpl;
    [|rewrite !elem_of_nil; naive_solver].
  destruct (Gate.fe_age f) as [age|] eqn:Ea; simpl; [|rewrite !elem_of_nil; naive_solver].
  unfold Gate.Qltb. destruct (Qle_bool age 60) eqn:Eq; simpl.
  2:{ assert (~ (age <= 60)%Q) as Hn by (rewrite <- Qle_bool_iff; congruence).
      rewrite !elem_of_nil; naive_solver. }
  apply Qle_bool_iff in Eq.
  unfold Gate.is_file_locked. destruct (Gate.fe_exists f) eqn:Ex, (Gate.fe_locked f) eqn:El; simpl;
    rewrite ?elem_of_nil, ?list_elem_of_singleton; naive_solver.
Qed.

Lemma wait_loop_locked (a : pystr) (t : Q) (snaps : list Gate.snapshot) :
  Forall (fun sn => (Gate.scan_locks a (Gate.sn_walk sn)).1 <> []) (loop_prefix t snaps) ->
  Gate.wait_loop a t snaps =
    (false, loop_prefix t snaps ≫= (fun sn => (Gate.scan_locks a (Gate.sn_walk sn)).2 ++ [Gate.GSleep 1])).
Proof.
  induction snaps as [|sn rest IH]; intros H; [done|].
  cbn [Gate.wait_loop loop_prefix] in H |- *.
  destruct (Gate.Qltb (Gate.sn_elapsed sn) t); [|done].
  apply Forall_cons in H as [Hl H].
  destruct (Gate.scan_locks a (Gate.sn_walk sn)) as [locked probes] eqn:E. simpl in Hl.
  destruct locked as [|x locked]; [done|].
  rewrite (IH H), bind_cons, E. simpl. by rewrite <- app_assoc.
Qed.

(** C8. In each iteration of the gate, a path is probed (the append-mode
    open of [is_file_locked]) exactly when it is a ".jpg" file outside the
    archive whose age could be read and is at most 60 seconds and which
    exists, and it is reported locked exactly when it is, besides, locked;
    files older than 60 seconds are never probed. If every iteration the
    loop runs before the 15 second timeout finds a locked file, the gate
    answers [False] after one probe round and one sleep of 1 second per
    iteration, and the triggered iteration of the main loop runs no pass:
    no file is archived and nothing is written. *)
Theorem gate_probes_recent_files_and_skips (e : env) (snaps : list Gate.snapshot) :
  Forall (fun sn => (Gate.scan_locks (env_archive e) (Gate.sn_walk sn)).1 <> []) (loop_prefix 15 snaps) ->
  (forall walk q,
     (Gate.GProbe q ∈ (Gate.scan_locks (env_archive e) walk).2 <->
      exists dir files f, (dir, files) ∈ walk /\ f ∈ files /\ startswith dir (env_archive e) = false /\
        endswith (py_lower (Gate.fe_name f)) (str ".jpg") = true /\
        (exists age, Gate.fe_age f = Some age /\ (age <= 60)%Q) /\
        Gate.fe_exists f = true /\ q = path_join dir (Gate.fe_name f)) /\
     (q ∈ (Gate.scan_locks (env_archive e) walk).1 <->
      exists dir files f, (dir, files) ∈ walk /\ f ∈ files /\ startswith dir (env_archive e) = false /\
        endswith (py_lower (Gate.fe_name f)) (str ".jpg") = true /\
        (exists age, Gate.fe_age f = Some age /\ (age <= 60)%Q) /\
        Gate.fe_exists f = true /\ Gate.fe_locked f = true /\ q = path_join dir (Gate.fe_name f))) /\
  Gate.wait_for_folder_stability (env_archive e) snaps =
    (false, loop_prefix 15 snaps ≫= (fun sn =>
               (Gate.scan_locks (env_archive e) (Gate.sn_walk sn)).2 ++ [Gate.GSleep 1])) /\
  Gate.main_iteration snaps e = [].
Proof.
  intros H. pose proof (wait_loop_locked (env_archive e) 15 snaps H) as Hw.
  split; [|split; [exact Hw|unfold Gate.main_iteration, Gate.wait_for_folder_stability; by rewrite Hw]].
  intros walk q. rewrite scan_locks_eq. simpl. rewrite !list_elem_of_bind. split.
  - split.
    + intros ([dir files] & Hq & Hd). unfold dir_probes in Hq.
      destruct (startswith dir (env_archive e)) eqn:Es; [inversion Hq|].
      simpl in Hq. apply list_elem_of_bind in Hq as (f & Hq & Hf).
      apply probe_of_spec in Hq. exists dir, files, f. done.
    + intros (dir & files & f & Hd & Hf & Hs & Hq). exists (dir, files). split; [|done].
      unfold dir_probes. rewrite Hs. simpl. apply list_elem_of_bind. exists f.
      split; [|done]. by apply probe_of_spec.
  - split.
    + intros ([dir files] & Hq & Hd). unfold dir_probes in Hq.
      destruct (startswith dir (env_archive e)) eqn:Es; [inversion Hq|].
      simpl in Hq. apply list_elem_of_bind in Hq as (f & Hq & Hf).
      apply probe_of_spec in Hq. exists dir, files, f. done.
    + intros (dir & files & f & Hd & Hf & Hs & Hq). exists (dir, files). split; [|done].
      unfold dir_probes. rewrite Hs. simpl. apply list_elem_of_bind. exists f.
      split; [|done]. by apply probe_of_spec.
Qed.

(** ** Timestamps *)

Lemma digit_facts (k : Z) : 0 <= k <= 9 ->
  is_digit (digit k) = true /\ digit_val (digit k) = k /\ is_space (digit k) = false.
Proof.
  intros H. assert (k = 0 \/ k = 1 \/ k = 2 \/ k = 3 \/ k = 4 \/ k = 5 \/ k = 6 \/ k = 7 \/ k = 8 \/ k = 9) by lia.
  repeat destruct H0 as [->|H0]; try subst k; vm_compute; auto.
Qed.

Lemma pad_length (n : nat) (v : Z) : length (pad n v) = n.
Proof. revert v. induction n; intros v; simpl; [done|]. rewrite length_app, IHn. simpl. lia. Qed.

Lemma pad_digits (n : nat) (v : Z) : forall c, c ∈ pad n v -> exists k, 0 <= k <= 9 /\ c = digit k.
Proof.
  revert v. induction n as [|n IH]; intros v c Hc; simpl in Hc; [inversion Hc|].
  apply elem_of_app in Hc as [Hc|Hc]; [exact (IH _ _ Hc)|].
  apply list_elem_of_singleton in Hc as ->. exists (v mod 10). split; [|done].
  pose proof (Z.mod_pos_bound v 10). lia.
Qed.

Lemma group_int_pad (n : nat) (v : Z) : 0 <= v -> group_int (pad n v) = v mod 10 ^ Z.of_nat n.
Proof.
  revert v. induction n as [|n IH]; intros v Hv.
  - simpl. rewrite Z.mod_1_r. reflexivity.
  - cbn [pad]. unfold group_int. rewrite fold_left_app. fold (group_int (pad n (v / 10))).
    rewrite IH by (apply Z.div_pos; lia). simpl.
    destruct (digit_facts (v mod 10)) as (Hd & Hv' & _); [pose proof (Z.mod_pos_bound v 10); lia|].
    rewrite Hd, Hv'.
    rewrite Nat2Z.inj_succ, Z.pow_succ_r by lia.
    rewrite Z.rem_mul_r by (try apply Z.pow_pos_nonneg; lia).
    lia.
Qed.

Lemma hd_match_pat_cons (it : Strptime.item) (p' : list Strptime.item) (s : pystr) c r cs r' G :
  hd_opt (Strptime.match_item it s) = Some (c, r) ->
  hd_opt (Strptime.match_pat p' r) = Some (cs, r') ->
  G = c ++ cs ->
  hd_opt (Strptime.match_pat (it :: p') s) = Some (G, r').
Proof.
  intros H1 H2 ->. cbn [Strptime.match_pat].
  destruct (Strptime.match_item it s) as [|[c0 r0] l]; [discriminate|]. simpl in H1.
  inversion H1; subst. rewrite bind_cons.
  destruct (Strptime.match_pat p' r) as [|[cs0 r1] l']; [discriminate|]. simpl in H2.
  inversion H2; subst. reflexivity.
Qed.

Lemma Z_enum (lo hi v : Z) : lo <= v <= hi ->
  In v (map (fun k => lo + Z.of_nat k) (seq 0 (Z.to_nat (hi - lo + 1)))).
Proof. intros H. apply in_map_iff. exists (Z.to_nat (v - lo)). split; [lia|]. apply in_seq. lia. Qed.

Ltac enum_cases H := apply Z_enum in H; vm_compute in H; repeat destruct H as [<-|H]; try contradiction.

Lemma field_m (v : Z) (rest : pystr) : 1 <= v <= 12 ->
  hd_opt (Strptime.match_item (Strptime.Field Strptime.re_m) (pad 2 v ++ rest)) = Some ([pad 2 v], rest).
Proof. intros H. enum_cases H; vm_compute; reflexivity. Qed.

Lemma field_d (v : Z) (rest : pystr) : 1 <= v <= 31 ->
  hd_opt (Strptime.match_item (Strptime.Field Strptime.re_d) (pad 2 v ++ rest)) = Some ([pad 2 v], rest).
Proof. intros H. enum_cases H; vm_compute; reflexivity. Qed.

Lemma field_H (v : Z) (rest : pystr) : 0 <= v <= 23 ->
  hd_opt (Strptime.match_item (Strptime.Field Strptime.re_H) (pad 2 v ++ rest)) = Some ([pad 2 v], rest).
Proof. intros H. enum_cases H; vm_compute; reflexivity. Qed.

Lemma field_M (v : Z) (rest : pystr) : 0 <= v <= 59 ->
  hd_opt (Strptime.match_item (Strptime.Field Strptime.re_M) (pad 2 v ++ rest)) = Some ([pad 2 v], rest).
Proof. intros H. enum_cases H; vm_compute; reflexivity. Qed.

Lemma field_S (v : Z) (rest : pystr) : 0 <= v <= 59 ->
  hd_opt (Strptime.match_item (Strptime.Field Strptime.re_S) (pad 2 v ++ rest)) = Some ([pad 2 v], rest).
Proof. intros H. enum_cases H; vm_compute; reflexivity. Qed.

Lemma pad_shape (n : nat) (v : Z) :
  Forall (fun c => exists k, 0 <= k <= 9 /\ c = digit k) (pad n v) /\ length (pad n v) = n.
Proof. split; [apply Forall_forall, pad_digits|apply pad_length]. Qed.

Lemma field_Y (v : Z) (rest : pystr) :
  Strptime.match_item (Strptime.Field Strptime.re_Y) (pad 4 v ++ rest) = [([pad 4 v], rest)].
Proof.
  destruct (pad_shape 4 v) as [Hd Hl].
  destruct (pad 4 v) as [|c1 [|c2 [|c3 [|c4 [|]]]]]; try discriminate.
  repeat (apply Forall_cons in Hd as [(? & ? & ->) Hd]).
  simpl. unfold Strptime.any_digit.
  repeat match goal with Hk : 0 <= ?k <= 9 |- _ => rewrite (proj1 (digit_facts k Hk)); clear Hk end.
  reflexivity.
Qed.

Lemma lit_head (c : ascii) (rest : pystr) :
  hd_opt (Strptime.match_item (Strptime.Lit c) (c :: rest)) = Some ([], rest).
Proof. simpl. unfold ascii_eqb. by rewrite Ascii.eqb_refl. Qed.

Lemma space_head (v : Z) (rest : pystr) :
  hd_opt (Strptime.match_item Strptime.Space (" "%char :: pad 2 v ++ rest)) = Some ([], pad 2 v ++ rest).
Proof.
  destruct (pad_shape 2 v) as [Hd Hl].
  destruct (pad 2 v) as [|c1 [|c2 [|]]]; try discriminate.
  apply Forall_cons in Hd as [(k & Hk & ->) _].
  simpl. rewrite (proj2 (proj2 (digit_facts k Hk))). reflexivity.
Qed.

Lemma days_in_month_le (y m : Z) : days_in_month y m <= 31.
Proof. unfold days_in_month. repeat (destruct (_ || _) || destruct (_ =? _) || destruct (is_leap _)); lia. Qed.

Lemma dt_valid_ranges (dt : datetime) : dt_valid dt = true ->
  1 <= dt_year dt <= 9999 /\ 1 <= dt_month dt <= 12 /\ 1 <= dt_day dt <= 31 /\
  0 <= dt_hour dt <= 23 /\ 0 <= dt_minute dt <= 59 /\ 0 <= dt_second dt <= 59.
Proof.
  unfold dt_valid. rewrite !andb_true_iff, !Z.leb_le. intros H.
  pose proof (days_in_month_le (dt_year dt) (dt_month dt)). lia.
Qed.

Lemma strftime_with_4 (sep : ascii) (dt : datetime) : 1000 <= dt_year dt ->
  strftime_with sep dt =
  pad 4 (dt_year dt) ++ [sep] ++ pad 2 (dt_month dt) ++ [sep] ++ pad 2 (dt_day dt) ++ [" "%char] ++
  pad 2 (dt_hour dt) ++ [":"%char] ++ pad 2 (dt_minute dt) ++ [":"%char] ++ pad 2 (dt_second dt).
Proof.
  intros Hy. unfold strftime_with, year_width.
  destruct (dt_year dt <? 10) eqn:E1; [apply Z.ltb_lt in E1; lia|].
  destruct (dt_year dt <? 100) eqn:E2; [apply Z.ltb_lt in E2; lia|].
  destruct (dt_year dt <? 1000) eqn:E3; [apply Z.ltb_lt in E3; lia|]. reflexivity.
Qed.

Lemma match_rendering (sep : ascii) (dt : datetime) : dt_valid dt = true -> 1000 <= dt_year dt ->
  hd_opt (Strptime.match_pat (Strptime.fmt_with sep) (strftime_with sep dt))
  = Some ([pad 4 (dt_year dt); pad 2 (dt_month dt); pad 2 (dt_day dt);
           pad 2 (dt_hour dt); pad 2 (dt_minute dt); pad 2 (dt_second dt)], []).
Proof.
  intros Hv Hy4. rewrite (strftime_with_4 sep dt Hy4).
  apply dt_valid_ranges in Hv as (Hy & Hm & Hd & Hh & Hmi & Hs).
  unfold Strptime.fmt_with.
  eapply hd_match_pat_cons; [by rewrite field_Y| |reflexivity].
  eapply hd_match_pat_cons; [apply lit_head| |reflexivity].
  eapply hd_match_pat_cons; [apply field_m; lia| |reflexivity].
  eapply hd_match_pat_cons; [apply lit_head| |reflexivity].
  eapply hd_match_pat_cons; [apply field_d; lia| |reflexivity].
  eapply hd_match_pat_cons; [apply space_head| |reflexivity].
  eapply hd_match_pat_cons; [apply field_H; lia| |reflexivity].
  eapply hd_match_pat_cons; [apply lit_head| |reflexivity].
  eapply hd_match_pat_cons; [apply field_M; lia| |reflexivity].
  eapply hd_match_pat_cons; [apply lit_head| |reflexivity].
  pose proof (field_S (dt_second dt) [] Hs) as HS. rewrite app_nil_r in HS.
  eapply hd_match_pat_cons; [exact HS|reflexivity|reflexivity].
Qed.

Lemma strptime_head (fmt : list Strptime.item) (s : pystr) y mo d h mi se l :
  Strptime.match_pat fmt s = ([y; mo; d; h; mi; se], []) :: l ->
  strptime fmt s =
    let dt := mkdt (group_int y) (group_int mo) (group_int d)
                   (group_int h) (group_int mi) (group_int se) in
    if dt_valid dt then Some dt else None.
Proof. intros H. unfold strptime. by rewrite H. Qed.

Lemma strptime_rendering (sep : ascii) (dt : datetime) : dt_valid dt = true -> 1000 <= dt_year dt ->
  strptime (Strptime.fmt_with sep) (strftime_with sep dt) = Some dt.
Proof.
  intros Hv Hy4. pose proof (match_rendering sep dt Hv Hy4) as Hm.
  pose proof (dt_valid_ranges dt Hv) as (Hy & Hmo & Hd & Hh & Hmi & Hs).
  assert (G4 : forall v, 0 <= v < 10000 -> group_int (pad 4 v) = v)
    by (intros v Hb; rewrite group_int_pad by lia; apply Z.mod_small; simpl; lia).
  assert (G2 : forall v, 0 <= v < 100 -> group_int (pad 2 v) = v)
    by (intros v Hb; rewrite group_int_pad by lia; apply Z.mod_small; simpl; lia).
  assert (E : exists l, Strptime.match_pat (Strptime.fmt_with sep) (strftime_with sep dt) =
            ([pad 4 (dt_year dt); pad 2 (dt_month dt); pad 2 (dt_day dt);
              pad 2 (dt_hour dt); pad 2 (dt_minute dt); pad 2 (dt_second dt)], []) :: l).
  { destruct (Strptime.match_pat _ _) as [|x l]; [discriminate|].
    exists l. cbn [hd_opt] in Hm. congruence. }
  destruct E as [l E]. rewrite (strptime_head _ _ _ _ _ _ _ _ _ E). cbv zeta.
  rewrite G4, !G2 by lia. destruct dt. simpl. by rewrite Hv.
Qed.

Lemma strftime_length (sep : ascii) (dt : datetime) : 1000 <= dt_year dt ->
  length (strftime_with sep dt) = 19%nat.
Proof. intros Hy. rewrite strftime_with_4 by exact Hy. rewrite !length_app, !pad_length. reflexivity. Qed.

Lemma take_rendering (sep : ascii) (dt : datetime) (t : pystr) : 1000 <= dt_year dt ->
  take 19 (strftime_with sep dt ++ t) = strftime_with sep dt.
Proof. intros Hy. rewrite <- (strftime_length sep dt Hy). apply take_app_length. Qed.

Lemma colon_rejects_hyphen (dt : datetime) : 1000 <= dt_year dt ->
  strptime Strptime.fmt_colon (strftime_with "-" dt) = None.
Proof.
  intros Hy. rewrite strftime_with_4 by exact Hy.
  unfold strptime, Strptime.fmt_colon, Strptime.fmt_with.
  cbn [Strptime.match_pat]. rewrite field_Y. reflexivity.
Qed.

(** C4. The row builder's timestamp step: both documented examples give
    "2026-01-21 09:44:47"; it looks only at the first 19 characters; it
    fails exactly when both the colon and the hyphen format reject them,
    and then no row is built; and for every valid instant (year at least
    1000), its colon-delimited and its hyphen-delimited rendering, followed
    by anything, give the same stored string, the hyphen rendering of the
    instant. *)
Theorem timestamp_formats_agree :
  parse_timestamp (str "2026:01:21 09:44:47.158+02:00") = Some (str "2026-01-21 09:44:47") /\
  parse_timestamp (str "2026-01-21 09:44:47") = Some (str "2026-01-21 09:44:47") /\
  (forall raw, parse_timestamp raw = parse_timestamp (take 19 raw)) /\
  (forall raw, parse_timestamp raw = None <->
     strptime Strptime.fmt_colon (take 19 raw) = None /\ strptime Strptime.fmt_hyphen (take 19 raw) = None) /\
  (forall thermal_ok filepath m, parse_timestamp (py_str (get_or (m_dto m) (JStr []))) = None ->
     process_image thermal_ok filepath m = None) /\
  (forall dt t, dt_valid dt = true -> 1000 <= dt_year dt ->
     parse_timestamp (strftime_with ":" dt ++ t) = Some (strftime_db dt) /\
     parse_timestamp (strftime_with "-" dt ++ t) = Some (strftime_db dt)).
Proof.
  split; [vm_compute; reflexivity|]. split; [vm_compute; reflexivity|]. split; [|split; [|split]].
  - intros raw. unfold parse_timestamp, py_take. by rewrite take_take, Nat.min_id.
  - intros raw. unfold parse_timestamp, py_take.
    destruct (strptime Strptime.fmt_colon _); [split; [discriminate|intros [? _]; discriminate]|].
    destruct (strptime Strptime.fmt_hyphen _); [split; [discriminate|intros [_ ?]; discriminate]|].
    done.
  - intros thermal_ok filepath m H. unfold process_image.
    destruct (clean_asset_code _); [|done]. destruct (py_int _); [|done]. by rewrite H.
  - intros dt t Hv Hy. unfold parse_timestamp, py_take.
    rewrite !take_rendering by exact Hy.
    unfold Strptime.fmt_colon. rewrite strptime_rendering by done. split; [done|].
    fold Strptime.fmt_colon. rewrite colon_rejects_hyphen by exact Hy.
    unfold Strptime.fmt_hyphen. by rewrite strptime_rendering.
Qed.

(** * Further properties of the code *)

(** ** Start-up: [validate_environment] and [init_db_engine] *)

(** X1. [validate_environment] creates the archive folder only when the
    input folder exists and the archive folder does not. It answers
    [True] only when the input folder exists, the archive folder exists or
    was created, exiftool is found (on the PATH or at its configured
    path) and DB_PASS is set and not empty; [init_db_engine] then builds a
    URL whatever the other settings are. *)
Theorem validate_environment_checks (s : startup) :
  (MakeDirs ∈ (validate_environment s).2 ->
     su_input_exists s = true /\ su_archive_exists s = false) /\
  ((validate_environment s).1 = true ->
     su_input_exists s = true /\
     (su_archive_exists s = true \/ su_makedirs_ok s = true) /\
     (su_which_exiftool s = true \/ su_exiftool_exists s = true) /\
     (exists c p, su_db_pass s = Some (c :: p)) /\
     forall u sv n, exists url, init_db_engine u sv n (su_db_pass s) = Some url).
Proof.
  destruct s as [i a m w x p]. unfold validate_environment, init_db_engine. cbn [su_input_exists
    su_archive_exists su_makedirs_ok su_which_exiftool su_exiftool_exists su_db_pass].
  destruct i, a, m, w, x, p as [[|c l]|]; cbn;
    rewrite ?elem_of_nil, ?list_elem_of_singleton; naive_solver.
Qed.

Lemma qp_dec_char (c : ascii) (r : pystr) : qp_dec (qp_char c ++ r) = c :: qp_dec r.
Proof.
  destruct c as [[] [] [] [] [] [] [] []];
    (let L := fresh in set (L := qp_char _); vm_compute in L; subst L); simpl;
    first [reflexivity | f_equal; vm_compute; reflexivity].
Qed.

Lemma qp_char_url (c : ascii) : Forall (fun x => url_char x = true) (qp_char c).
Proof. apply (bool_decide_unpack _). (destruct c as [[] [] [] [] [] [] [] []]; vm_compute; exact I). Qed.

Lemma qp_char_nospace (c : ascii) : ascii_eqb c " " = false ->
  utf8_char c ≫= quote_byte (fun b => always_safe b || false) = qp_char c.
Proof. (destruct c as [[] [] [] [] [] [] [] []]; vm_compute; first [reflexivity|discriminate]). Qed.

Lemma qp_char_space (c : ascii) :
  map (fun x => if ascii_eqb x " " then "+"%char else x)
      (utf8_char c ≫= quote_byte (fun b => always_safe b || (b =? 32))) = qp_char c.
Proof. (destruct c as [[] [] [] [] [] [] [] []]; vm_compute; reflexivity). Qed.

Lemma bind_assoc_list {A B C} (s : list A) (f : A -> list B) (g : B -> list C) :
  (s ≫= f) ≫= g = s ≫= (fun x => f x ≫= g).
Proof. induction s as [|x s IH]; [done|]. rewrite !bind_cons, bind_app. by rewrite IH. Qed.

Lemma map_bind_list {A B} (h : B -> B) (s : list A) (f : A -> list B) :
  map h (s ≫= f) = s ≫= (fun x => map h (f x)).
Proof. induction s as [|x s IH]; [done|]. rewrite !bind_cons, map_app. by rewrite IH. Qed.

Lemma bind_ext_in {A B} (s : list A) (f g : A -> list B) :
  (forall x, x ∈ s -> f x = g x) -> s ≫= f = s ≫= g.
Proof.
  induction s as [|x s IH]; intros H; [done|]. rewrite !bind_cons.
  rewrite (H x) by (by left). rewrite IH; [done|]. intros y Hy. apply H. by right.
Qed.

Lemma quote_plus_eq (s : pystr) : quote_plus s = s ≫= qp_char.
Proof.
  unfold quote_plus. destruct (existsb (fun c => ascii_eqb c " ") s) eqn:E; simpl.
  - unfold quote. destruct s as [|c0 s0] eqn:Es; [discriminate|]. rewrite <- Es.
    rewrite bind_assoc_list, map_bind_list. apply bind_ext_in. intros x _. apply qp_char_space.
  - unfold quote. destruct s as [|c0 s0] eqn:Es; [done|]. rewrite <- Es.
    rewrite bind_assoc_list. apply bind_ext_in. intros x Hx. apply qp_char_nospace.
    destruct (ascii_eqb x " ") eqn:Ex; [|done]. exfalso.
    assert (existsb (fun c => ascii_eqb c " ") s = true) as Ht
      by (apply existsb_exists; exists x; split; [by apply list_elem_of_In|done]).
    congruence.
Qed.

Lemma qp_dec_bind (s : pystr) : qp_dec (s ≫= qp_char) = s.
Proof. induction s as [|c s IH]; [done|]. by rewrite bind_cons, qp_dec_char, IH. Qed.

(** X2. The password goes into the database URL through [quote_plus]: its
    encoding uses only ASCII letters, digits and "_.-~%+" (no ":", "@",
    "/" or "?"), distinct passwords have distinct encodings, and with the
    other settings fixed distinct passwords give distinct URLs. *)
Theorem db_password_encoding (u sv n : option pystr) (p1 p2 : pystr) :
  Forall (fun c => url_char c = true) (quote_plus p1) /\
  (quote_plus p1 = quote_plus p2 -> p1 = p2) /\
  (init_db_engine u sv n (Some p1) = init_db_engine u sv n (Some p2) -> p1 = p2).
Proof.
  assert (Hinj : quote_plus p1 = quote_plus p2 -> p1 = p2).
  { rewrite !quote_plus_eq. intros H. by rewrite <- (qp_dec_bind p1), H, qp_dec_bind. }
  split; [|split; [exact Hinj|]].
  - rewrite quote_plus_eq. clear Hinj. induction p1 as [|c p IH]; [constructor|].
    rewrite bind_cons. apply Forall_app. split; [apply qp_char_url|exact IH].
  - unfold init_db_engine. intros H. inversion H as [H1]. apply Hinj.
    apply app_inv_head in H1. simpl in H1. inversion H1 as [H2].
    apply app_inv_tail in H2. exact H2.
Qed.

(** ** Asset codes *)

Lemma py_upper_char_keep (c : ascii) :
  is_upper_az c || is_digit c = true -> py_upper_char c = [c].
Proof.
  unfold py_upper_char, is_upper_az, is_digit, is_lower_az.
  rewrite orb_true_iff, !andb_true_iff, !Z.leb_le. intros H.
  destruct ((97 <=? code c) && (code c <=? 122)) eqn:E1.
  { apply andb_true_iff in E1 as [E1 E2]. apply Z.leb_le in E1, E2. lia. }
  destruct (code c =? 223) eqn:E2; [apply Z.eqb_eq in E2; lia|].
  destruct ((224 <=? code c) && (code c <=? 254) && _) eqn:E3; [|done].
  apply andb_true_iff in E3 as [E3 _]. apply andb_true_iff in E3 as [E3 _]. apply Z.leb_le in E3. lia.
Qed.

Lemma py_upper_keep (s : pystr) :
  Forall (fun x => is_upper_az x || is_digit x = true) s -> py_upper s = s.
Proof.
  induction s as [|c s IH]; intros H; [done|]. apply Forall_cons in H as [Hc H].
  unfold py_upper. rewrite bind_cons. fold (py_upper s). by rewrite py_upper_char_keep, IH.
Qed.

Lemma clean_filter_keep (s : pystr) :
  Forall (fun x => is_upper_az x || is_digit x = true) s ->
  filter (fun c => is_upper_az c || is_digit c) s = s.
Proof.
  induction s as [|c s IH]; intros H; [done|]. apply Forall_cons in H as [Hc H].
  rewrite filter_cons_True by (rewrite Hc; exact I). by rewrite IH.
Qed.

(** X3. A code [clean_asset_code] returns is not empty, consists of
    upper-case ASCII letters and digits only, and is returned unchanged
    when it is cleaned again. *)
Theorem clean_asset_code_canonical (v : jval) (c : pystr) :
  clean_asset_code v = Some c ->
  c <> [] /\ Forall (fun x => is_upper_az x || is_digit x = true) c /\
  clean_asset_code (JStr c) = Some c.
Proof.
  unfold clean_asset_code at 1. destruct (py_falsy v); [discriminate|].
  destruct (filter _ _) as [|x l] eqn:E; [discriminate|]. intros H. inversion H; subst c.
  assert (HF : Forall (fun x => is_upper_az x || is_digit x = true) (x :: l)).
  { rewrite <- E. apply Forall_forall. intros y Hy. apply list_elem_of_filter in Hy as [Hy _].
    by apply Is_true_true. }
  split; [done|]. split; [exact HF|].
  unfold clean_asset_code. cbn [py_falsy py_str]. rewrite py_upper_keep by exact HF.
  by rewrite clean_filter_keep by exact HF.
Qed.

Lemma py_upper_lower_char (c : ascii) : py_upper_char (py_lower_char c) = py_upper_char c.
Proof. destruct c as [[] [] [] [] [] [] [] []]; vm_compute; reflexivity. Qed.

Lemma py_upper_upper_char (c : ascii) : py_upper (py_upper_char c) = py_upper_char c.
Proof. destruct c as [[] [] [] [] [] [] [] []]; vm_compute; reflexivity. Qed.

Lemma py_upper_char_nonempty (c : ascii) : py_upper_char c <> [].
Proof. destruct c as [[] [] [] [] [] [] [] []]; vm_compute; discriminate. Qed.

Lemma py_upper_lower (s : pystr) : py_upper (py_lower s) = py_upper s.
Proof.
  induction s as [|c s IH]; [done|]. unfold py_upper, py_lower in *. cbn [map].
  rewrite !bind_cons, IH. by rewrite py_upper_lower_char.
Qed.

Lemma py_upper_idem (s : pystr) : py_upper (py_upper s) = py_upper s.
Proof.
  induction s as [|c s IH]; [done|]. unfold py_upper in *.
  rewrite !bind_cons, bind_app, IH. fold (py_upper (py_upper_char c)). by rewrite py_upper_upper_char.
Qed.

Lemma py_upper_nil (s : pystr) : py_upper s = [] <-> s = [].
Proof.
  destruct s as [|c s]; [done|]. unfold py_upper. rewrite bind_cons. split; [|discriminate].
  intros H. apply app_eq_nil in H as [H _]. by destruct (py_upper_char_nonempty c).
Qed.

(** X4. On an ASCII note, [clean_asset_code] does not depend on the case
    of its input: the lower-cased and the upper-cased note give the same
    result as the note itself. *)
Theorem clean_asset_code_case (s : pystr) :
  Forall (fun c => (nat_of_ascii c < 128)%nat) s ->
  clean_asset_code (JStr (py_lower s)) = clean_asset_code (JStr s) /\
  clean_asset_code (JStr (py_upper s)) = clean_asset_code (JStr s).
Proof.
  intros _. unfold clean_asset_code. cbn [py_str]. rewrite py_upper_lower, py_upper_idem.
  assert (Hl : py_falsy (JStr (py_lower s)) = py_falsy (JStr s)) by (destruct s; reflexivity).
  assert (Hu : py_falsy (JStr (py_upper s)) = py_falsy (JStr s)).
  { destruct s as [|c s]; [reflexivity|].
    assert (py_upper (c :: s) <> []) as Hn by (rewrite py_upper_nil; discriminate).
    destruct (py_upper (c :: s)); [contradiction|reflexivity]. }
  by rewrite Hl, Hu.
Qed.

(** ** Timestamps *)

Lemma strptime_valid (fmt : list Strptime.item) (s : pystr) (dt : datetime) :
  strptime fmt s = Some dt -> dt_valid dt = true.
Proof.
  unfold strptime. destruct (Strptime.match_pat fmt s) as [|[gs r] l]; [discriminate|].
  destruct gs as [|y [|mo [|d [|h [|mi [|se [|]]]]]]]; try discriminate.
  destruct r; [|discriminate]. destruct (dt_valid _) eqn:E; [|discriminate].
  intros H. inversion H; subst. exact E.
Qed.

Lemma replace_count_skip (o n : ascii) (k : nat) (x y : pystr) :
  (o ∉ x) -> replace_count o n k (x ++ y) = x ++ replace_count o n k y.
Proof.
  destruct k as [|k].
  { intros _. assert (Hz : forall s, replace_count o n 0 s = s) by (intros [|? ?]; reflexivity).
    by rewrite !Hz. }
  induction x as [|c x IH]; intros Hx; [reflexivity|]. simpl.
  destruct (ascii_eqb c o) eqn:E.
  - unfold ascii_eqb in E. apply Ascii.eqb_eq in E. subst. destruct Hx. by left.
  - rewrite IH; [reflexivity|]. intros H. apply Hx. by right.
Qed.

Lemma pad_no_colon (n : nat) (v : Z) : ":"%char ∉ pad n v.
Proof.
  intros H. apply pad_digits in H as (k & Hk & Hc).
  destruct (digit_facts k Hk) as [Hd _]. rewrite <- Hc in Hd. discriminate.
Qed.

Lemma replace_count_hit (o n : ascii) (k : nat) (s : pystr) :
  replace_count o n (S k) (o :: s) = n :: replace_count o n k s.
Proof. simpl. unfold ascii_eqb. by rewrite Ascii.eqb_refl. Qed.

Lemma filter_ts_colon (dt : datetime) (t : pystr) : 1000 <= dt_year dt ->
  filter_ts (strftime_with ":" dt ++ t) = strftime_db dt.
Proof.
  intros Hy. unfold filter_ts, py_take, strftime_db.
  assert (replace_count ":" "-" 2 (strftime_with ":" dt ++ t) = strftime_with "-" dt ++ t) as ->.
  { unfold strftime_with. rewrite <- !app_assoc.
    rewrite replace_count_skip by apply pad_no_colon. f_equal.
    change ([":"%char] ++ ?x) with (":"%char :: x). rewrite replace_count_hit.
    change ([":"%char] ++ ?x) with (":"%char :: x).
    rewrite replace_count_skip by apply pad_no_colon. rewrite replace_count_hit.
    reflexivity. }
  by apply take_rendering.
Qed.

(** ** The stability gate *)

(** X6. In one iteration of the stability gate, every path reported locked
    was probed, and every probed path is one that [iter_all_jpgs] lists
    for the same [os.walk] listing: a ".jpg" file (in any case) outside
    the archive folder. *)
Theorem gate_probes_listed_files (a : pystr) (walk : list (pystr * list Gate.fentry)) (q : pystr) :
  (q ∈ (Gate.scan_locks a walk).1 -> Gate.GProbe q ∈ (Gate.scan_locks a walk).2) /\
  (Gate.GProbe q ∈ (Gate.scan_locks a walk).2 ->
     q ∈ iter_all_jpgs a (map (fun '(dir, fs) => (dir, map Gate.fe_name fs)) walk)).
Proof.
  rewrite scan_locks_eq. simpl. split.
  - rewrite !list_elem_of_bind. intros ([dir files] & Hq & Hd). exists (dir, files).
    split; [|done]. unfold dir_probes in *. destruct (startswith dir a); [inversion Hq|].
    simpl in *. apply list_elem_of_bind in Hq as (f & Hq & Hf). apply list_elem_of_bind.
    exists f. split; [|done]. apply probe_of_spec. apply probe_of_spec in Hq. naive_solver.
  - rewrite list_elem_of_bind. intros ([dir files] & Hq & Hd). unfold dir_probes in Hq.
    destruct (startswith dir a) eqn:Es; [inversion Hq|]. simpl in Hq.
    apply list_elem_of_bind in Hq as (f & Hq & Hf). apply probe_of_spec in Hq as (Hj & _ & _ & ->).
    unfold iter_all_jpgs. apply list_elem_of_bind. exists (dir, map Gate.fe_name files). split.
    + rewrite Es. apply list_elem_of_In, in_map. apply list_elem_of_In, list_elem_of_filter.
      split; [by rewrite Hj|]. apply list_elem_of_In, in_map. by apply list_elem_of_In.
    + apply list_elem_of_In, in_map_iff. exists (dir, files). split; [done|]. by apply list_elem_of_In.
Qed.

Lemma wait_loop_stable (a : pystr) (t : Q) (snaps : list Gate.snapshot) :
  fst (Gate.wait_loop a t snaps) = true <->
  exists sn, sn ∈ loop_prefix t snaps /\ (Gate.scan_locks a (Gate.sn_walk sn)).1 = [].
Proof.
  induction snaps as [|sn rest IH]; cbn [Gate.wait_loop loop_prefix].
  - split; [discriminate|]. intros (? & Hx & _). inversion Hx.
  - destruct (Gate.Qltb (Gate.sn_elapsed sn) t).
    + destruct (Gate.scan_locks a (Gate.sn_walk sn)) as [locked probes] eqn:E.
      destruct locked as [|x locked].
      * simpl. split; [intros _; exists sn; rewrite E; split; [by left|done]|done].
      * destruct (Gate.wait_loop a t rest) as [b evs] eqn:Ew. simpl in IH |- *. rewrite IH.
        setoid_rewrite elem_of_cons. split.
        -- intros (sn' & Hin & Hl). exists sn'. split; [by right|done].
        -- intros (sn' & [->|Hin] & Hl); [rewrite E in Hl; discriminate|]. by exists sn'.
    + simpl. split; [discriminate|]. intros (? & Hx & _). inversion Hx.
Qed.

(** X7. The gate answers that the folder is stable exactly when one of the
    iterations it runs before the 15 second timeout finds no locked
    file. *)
Theorem gate_stable_iff_unlocked_scan (a : pystr) (snaps : list Gate.snapshot) :
  fst (Gate.wait_for_folder_stability a snaps) = true <->
  exists sn, sn ∈ loop_prefix 15 snaps /\ (Gate.scan_locks a (Gate.sn_walk sn)).1 = [].
Proof. apply wait_loop_stable. Qed.

(** ** [move_to_archive] and the watcher *)

Lemma elem_of_drop_list {A} (x : A) (n : nat) (l : list A) : x ∈ drop n l -> x ∈ l.
Proof. intros H. rewrite <- (take_drop n l). apply elem_of_app. by right. Qed.

Lemma rfind_from_app (c : ascii) (i : Z) (x y : pystr) (f : Z) :
  rfind_from c i (x ++ y) f = rfind_from c (i + Z.of_nat (length x)) y (rfind_from c i x f).
Proof.
  revert i f. induction x as [|d x IH]; intros i f; simpl; [by rewrite Z.add_0_r|].
  rewrite IH. f_equal. lia.
Qed.

Lemma rfind_from_absent (c : ascii) (i : Z) (y : pystr) (f : Z) :
  (c ∉ y) -> rfind_from c i y f = f.
Proof.
  revert i f. induction y as [|d y IH]; intros i f Hy; [done|]. simpl.
  rewrite elem_of_cons in Hy. destruct (ascii_eqb d c) eqn:E.
  - unfold ascii_eqb in E. apply Ascii.eqb_eq in E. subst. destruct Hy. by left.
  - apply IH. intros H. apply Hy. by right.
Qed.

Lemma rfind_from_spec (c : ascii) (s : pystr) (i f : Z) :
  ((c ∉ s) /\ rfind_from c i s f = f) \/
  exists k, rfind_from c i s f = i + Z.of_nat k /\ s !! k = Some c /\ (c ∉ drop (S k) s).
Proof.
  revert i f. induction s as [|d s IH]; intros i f.
  - left. split; [apply not_elem_of_nil|done].
  - simpl. destruct (IH (i + 1) (if ascii_eqb d c then i else f)) as [[Hn Hr]|(k & Hr & Hk & Hd)].
    + rewrite Hr. destruct (ascii_eqb d c) eqn:E.
      * unfold ascii_eqb in E. apply Ascii.eqb_eq in E. subst d. right. exists 0%nat.
        split; [lia|]. split; [done|]. exact Hn.
      * left. split; [|done]. rewrite elem_of_cons. intros [->|H]; [|done].
        unfold ascii_eqb in E. by rewrite Ascii.eqb_refl in E.
    + right. exists (S k). split; [rewrite Hr; lia|]. split; done.
Qed.

Lemma rfind_spec (c : ascii) (s : pystr) :
  ((c ∉ s) /\ rfind c s = -1) \/
  exists k, rfind c s = Z.of_nat k /\ s !! k = Some c /\ (c ∉ drop (S k) s).
Proof. exact (rfind_from_spec c s 0 (-1)). Qed.

Lemma rfind_absent (c : ascii) (s : pystr) : (c ∉ s) -> rfind c s = -1.
Proof. apply rfind_from_absent. Qed.

Lemma rfind_last (c : ascii) (x r : pystr) : (c ∉ r) -> rfind c (x ++ c :: r) = Z.of_nat (length x).
Proof.
  intros Hr. unfold rfind. rewrite rfind_from_app. simpl. unfold ascii_eqb. rewrite Ascii.eqb_refl.
  rewrite rfind_from_absent by exact Hr. lia.
Qed.

Lemma rfind_app_absent (c : ascii) (x y : pystr) : (c ∉ y) -> rfind c (x ++ y) = rfind c x.
Proof. intros Hy. unfold rfind. rewrite rfind_from_app. by apply rfind_from_absent. Qed.

Lemma take1_drop (p : pystr) (k : nat) (c : ascii) : p !! k = Some c -> take 1 (drop k p) = [c].
Proof. intros H. by rewrite (drop_S _ _ _ H). Qed.

Lemma splitext_loop_true (p : pystr) (n : nat) (fi : Z) (j : nat) (c : ascii) :
  0 <= fi -> fi <= Z.of_nat j < fi + Z.of_nat n -> p !! j = Some c -> c <> "."%char ->
  splitext_loop p fi n = true.
Proof.
  revert fi. induction n as [|n IH]; intros fi H0 Hj Hc Hd; [lia|]. simpl.
  destruct (bool_decide _) eqn:E; simpl; [|done].
  apply bool_decide_eq_true in E.
  destruct (decide (fi = Z.of_nat j)) as [->|Hne].
  - rewrite Nat2Z.id, (take1_drop _ _ _ Hc) in E. inversion E. contradiction.
  - apply (IH (fi + 1)); [lia|lia|done|done].
Qed.

Lemma splitext_loop_app (x y : pystr) (n : nat) (fi : Z) :
  0 <= fi -> fi + Z.of_nat n <= Z.of_nat (length x) ->
  splitext_loop (x ++ y) fi n = splitext_loop x fi n.
Proof.
  revert fi. induction n as [|n IH]; intros fi H0 Hb; [done|]. simpl.
  rewrite drop_app_le by lia. rewrite take_app.
  replace (1 - length (drop (Z.to_nat fi) x))%nat with 0%nat by (rewrite length_drop; lia).
  rewrite take_0, app_nil_r. rewrite IH by lia. reflexivity.
Qed.

Lemma splitext_shape (p root ext : pystr) :
  splitext p = (root, ext) ->
  root ++ ext = p /\
  (ext = [] \/ exists r, ext = "."%char :: r /\ ("."%char ∉ r) /\ ("/"%char ∉ r)).
Proof.
  unfold splitext. destruct (_ && _) eqn:Hc.
  2:{ intros H. inversion H; subst. split; [apply app_nil_r|by left]. }
  apply andb_true_iff in Hc as [Hlt _]. apply Z.ltb_lt in Hlt.
  intros H. inversion H; subst root ext; clear H. split; [apply take_drop|right].
  destruct (rfind_spec "." p) as [[_ Hd]|(k & Hd & Hk & Hnd)].
  { destruct (rfind_spec "/" p) as [[_ Hs]|(k & Hs & _)]; lia. }
  rewrite Hd, Nat2Z.id, (drop_S _ _ _ Hk). exists (drop (S k) p). split; [done|]. split; [done|].
  destruct (rfind_spec "/" p) as [[Hns _]|(ks & Hs & _ & Hns)].
  - intros Hx. apply Hns. exact (elem_of_drop_list _ _ _ Hx).
  - rewrite Hs, Hd in Hlt. intros Hx. apply Hns.
    replace (S k) with (S ks + (S k - S ks))%nat in Hx by lia. rewrite <- drop_drop in Hx.
    exact (elem_of_drop_list _ _ _ Hx).
Qed.

(** X8. [os.path.splitext] splits a path into a root and an extension
    that concatenate back to it; the extension is empty or a "." followed
    by characters that are neither "." nor "/". *)
Theorem splitext_root_ext (p root ext : pystr) :
  splitext p = (root, ext) ->
  root ++ ext = p /\
  (ext = [] \/ exists r, ext = "."%char :: r /\ ("."%char ∉ r) /\ ("/"%char ∉ r)).
Proof. apply splitext_shape. Qed.

Lemma take_while_all (P : ascii -> bool) (l : pystr) : forall c, c ∈ take_while P l -> P c = true.
Proof.
  induction l as [|d l IH]; intros c H; simpl in H; [inversion H|].
  destruct (P d) eqn:E; [|inversion H]. apply elem_of_cons in H as [->|H]; [done|exact (IH c H)].
Qed.

Lemma basename_no_sep (p : pystr) : "/"%char ∉ basename p.
Proof.
  unfold basename. rewrite list_elem_of_In, <- in_rev, <- list_elem_of_In. intros H. apply take_while_all in H. done.
Qed.

Lemma str_of_Z_chars (z : Z) : forall c, c ∈ str_of_Z z -> c <> "."%char /\ c <> "/"%char.
Proof.
  assert (Hu : forall u c, c ∈ list_ascii_of_string (NilEmpty.string_of_uint u) ->
                 c <> "."%char /\ c <> "/"%char).
  { induction u; simpl; intros c H; rewrite ?elem_of_cons in H;
      try (inversion H; fail); (destruct H as [->|H]; [split; discriminate|exact (IHu c H)]). }
  unfold str_of_Z. destruct (Z.to_int z) as [u|u]; simpl; [apply Hu|].
  intros c H. apply elem_of_cons in H as [->|H]; [split; discriminate|exact (Hu u c H)].
Qed.

Lemma no_sep_app (x y : pystr) : ("/"%char ∉ x ++ y) <-> ("/"%char ∉ x) /\ ("/"%char ∉ y).
Proof. rewrite elem_of_app. tauto. Qed.

Lemma splitext_renamed_ext (base r T : pystr) :
  ("/"%char ∉ base) -> ("."%char ∉ r) -> ("/"%char ∉ r) ->
  (forall c, c ∈ T -> c <> "."%char /\ c <> "/"%char) ->
  splitext (base ++ str "_" ++ T ++ "."%char :: r) = (base ++ str "_" ++ T, "."%char :: r).
Proof.
  intros Hb Hr Hr' HT.
  assert (Hx : base ++ str "_" ++ T ++ "."%char :: r = (base ++ str "_" ++ T) ++ "."%char :: r)
    by (by rewrite <- !app_assoc).
  rewrite Hx. unfold splitext. cbv zeta.
  rewrite (rfind_absent "/").
  2:{ intros Hc. apply elem_of_app in Hc as [Hc|Hc].
      - apply elem_of_app in Hc as [Hc|Hc]; [done|].
        apply elem_of_app in Hc as [Hc|Hc].
        + apply list_elem_of_singleton in Hc. discriminate.
        + by apply HT in Hc as [_ ?].
      - apply elem_of_cons in Hc as [Hc|Hc]; [discriminate|done]. }
  rewrite (rfind_last "." _ _ Hr).
  replace (Z.of_nat (length (base ++ str "_" ++ T)) - (-1 + 1)) with
    (Z.of_nat (length (base ++ str "_" ++ T))) by lia.
  rewrite (splitext_loop_true _ _ _ (length base) "_"%char).
  - rewrite Nat2Z.id, take_app_length, drop_app_length.
    assert (((-1) <? Z.of_nat (length (base ++ str "_" ++ T))) = true) as -> by (apply Z.ltb_lt; lia).
    reflexivity.
  - lia.
  - rewrite !length_app. simpl. lia.
  - rewrite <- Hx. simpl. apply list_lookup_middle. done.
  - discriminate.
Qed.

Lemma splitext_renamed_noext (base T : pystr) :
  ("/"%char ∉ base) -> (forall c, c ∈ T -> c <> "."%char /\ c <> "/"%char) ->
  (splitext base).2 = [] ->
  splitext (base ++ str "_" ++ T) = (base ++ str "_" ++ T, []).
Proof.
  intros Hb HT. unfold splitext. cbv zeta.
  assert (Hy : forall c, c ∈ str "_" ++ T -> c <> "."%char /\ c <> "/"%char).
  { intros c Hc. apply elem_of_app in Hc as [Hc|Hc]; [|by apply HT].
    apply list_elem_of_singleton in Hc as ->. split; discriminate. }
  rewrite (rfind_absent "/" base) by exact Hb.
  rewrite (rfind_absent "/" (base ++ _)).
  2:{ intros Hc. apply elem_of_app in Hc as [Hc|Hc]; [done|]. by apply Hy in Hc as [_ ?]. }
  rewrite (rfind_app_absent "." base) by (intros Hc; by apply Hy in Hc as [? _]).
  destruct (rfind_spec "." base) as [[_ Hd]|(k & Hd & Hk & _)].
  { rewrite Hd. reflexivity. }
  rewrite Hd. replace (Z.of_nat k - (-1 + 1)) with (Z.of_nat k) by lia.
  pose proof (lookup_lt_Some _ _ _ Hk) as Hlt.
  rewrite (splitext_loop_app base) by lia.
  destruct ((-1 <? Z.of_nat k) && splitext_loop base (-1 + 1) (Z.to_nat (Z.of_nat k))); [|done].
  simpl. rewrite Nat2Z.id, (drop_S _ _ _ Hk). discriminate.
Qed.

Lemma move_dst_shape (a : pystr) (w : fs_world) (p src dst : pystr) :
  move_to_archive a w p = (true, Some (src, dst)) ->
  src = p /\ exists name, dst = path_join a name /\ ("/"%char ∉ name) /\
  (fs_exists w (path_join a (basename p)) = false -> name = basename p) /\
  (fs_exists w (path_join a (basename p)) = true ->
     exists base ext, splitext (basename p) = (base, ext) /\
       name = base ++ str "_" ++ str_of_Z (fs_now w) ++ ext /\
       splitext name = (base ++ str "_" ++ str_of_Z (fs_now w), ext)).
Proof.
  unfold move_to_archive. cbv zeta. intros H.
  destruct (fs_exists w (path_join a (basename p))) eqn:Ex.
  - destruct (splitext (basename p)) as [base ext] eqn:Es.
    destruct (fs_move_ok _ _ _); inversion H; subst src dst; clear H.
    pose proof (basename_no_sep p) as Hn.
    destruct (splitext_shape _ _ _ Es) as [Hre Hext].
    rewrite <- Hre in Hn. apply no_sep_app in Hn as [Hnb Hne].
    pose proof (str_of_Z_chars (fs_now w)) as HT.
    split; [done|]. eexists. split; [reflexivity|]. split; [|split; [discriminate|]].
    + intros Hc. apply elem_of_app in Hc as [Hc|Hc]; [done|].
      apply elem_of_cons in Hc as [Hc|Hc]; [discriminate|].
      apply elem_of_app in Hc as [Hc|Hc]; [by apply HT in Hc as [_ ?]|done].
    + intros _. exists base, ext. split; [done|]. split; [done|].
      destruct Hext as [->|(r & -> & Hr & Hr')].
      * rewrite !app_nil_r. apply splitext_renamed_noext; [done|done|]. rewrite app_nil_r in Hre. by rewrite Hre, Es.
      * by apply splitext_renamed_ext.
  - destruct (fs_move_ok _ _ _); inversion H; subst src dst; clear H.
    split; [done|]. exists (basename p). split; [done|]. split; [apply basename_no_sep|].
    split; [done|discriminate].
Qed.

(** X9. [move_to_archive] moves a file into the archive folder under a
    name without separator: its own name, or on a name clash its root,
    "_", the current time and its extension, a name whose extension is
    the original one. *)
Theorem move_to_archive_destination (a : pystr) (w : fs_world) (p src dst : pystr) :
  move_to_archive a w p = (true, Some (src, dst)) ->
  src = p /\ exists name, dst = path_join a name /\ ("/"%char ∉ name) /\
  (fs_exists w (path_join a (basename p)) = false -> name = basename p) /\
  (fs_exists w (path_join a (basename p)) = true ->
     exists base ext, splitext (basename p) = (base, ext) /\
       name = base ++ str "_" ++ str_of_Z (fs_now w) ++ ext /\
       splitext name = (base ++ str "_" ++ str_of_Z (fs_now w), ext)).
Proof. apply move_dst_shape. Qed.

Lemma startswith_path_join (a n : pystr) : startswith (path_join a n) a = true.
Proof.
  apply startswith_prefix. unfold path_join. destruct (endswith a (str "/")).
  - by exists n.
  - by exists (str "/" ++ n).
Qed.

(** X10. The moves [move_to_archive] makes never set the trigger: a
    file-system event for the destination of a move, created or moved
    there, is ignored, as is every directory event. *)
Theorem archive_moves_do_not_trigger (a : pystr) (w : fs_world) (p src dst : pystr) (ev : fs_event) :
  move_to_archive a w p = (true, Some (src, dst)) ->
  file_trigger a dst = false /\
  (ev_src_path ev = dst -> on_created a ev = false) /\
  (ev_dest_path ev = dst -> on_moved a ev = false) /\
  (ev_is_directory ev = true -> on_created a ev = false /\ on_moved a ev = false).
Proof.
  intros H. destruct (move_dst_shape a w p src dst H) as (_ & name & -> & _).
  assert (Ht : file_trigger a (path_join a name) = false).
  { unfold file_trigger. rewrite startswith_path_join. by destruct (negb _). }
  split; [exact Ht|]. unfold on_created, on_moved.
  split; [intros Hs; rewrite Hs; by destruct (negb _)|].
  split; [intros Hs; rewrite Hs; by destruct (negb _)|].
  intros ->. done.
Qed.

(** ** The pass *)

Lemma map_metadata_step_lookup (l : list meta) (k : pystr) (m : meta) (acc : gmap pystr meta * list pystr) :
  (forall m', m' ∈ l -> m_source m' <> Some (JStr k)) -> acc.1 !! k = Some m ->
  (fold_left (fun '(d, ts) m =>
      match m_source m with
      | Some (JStr src) =>
          (<[src := m]> d,
           match m_dto m with
           | Some v => ts ++ [replace_count ":" "-" 2 (py_str v)]
           | None => ts
           end)
      | _ => (d, ts)
      end) l acc).1 !! k = Some m.
Proof.
  revert acc. induction l as [|m' l IH]; intros [d ts] Hl Hacc; [done|]. simpl.
  apply IH; [intros y Hy; apply Hl; by right|].
  destruct (m_source m') as [[| | |src]|] eqn:Es; try exact Hacc.
  simpl. rewrite lookup_insert_ne; [exact Hacc|]. intros ->. apply (Hl m'); [by left|done].
Qed.

(** X11. Step 1 of [run_pipeline] maps a path to the last record of the
    scan whose [SourceFile] it is. *)
Theorem map_metadata_last_record (l1 l2 : list meta) (m : meta) (k : pystr) :
  m_source m = Some (JStr k) -> (forall m', m' ∈ l2 -> m_source m' <> Some (JStr k)) ->
  (map_metadata (l1 ++ m :: l2)).1 !! k = Some m.
Proof.
  intros Hs Hl. unfold map_metadata. rewrite fold_left_app. cbn [fold_left].
  apply map_metadata_step_lookup; [exact Hl|].
  destruct (fold_left _ l1 (∅, [])) as [d ts]. simpl. rewrite Hs. simpl. apply lookup_insert_eq.
Qed.

Lemma collect_files_app (d : gmap pystr meta) (ex : gset sig) (l1 l2 : list pystr) :
  collect_files d ex (l1 ++ l2) =
  let '(e1, f1, x1) := collect_files d ex l1 in
  let '(e2, f2, x2) := collect_files d x1 l2 in (e1 ++ e2, f1 ++ f2, x2).
Proof.
  revert ex. induction l1 as [|p l1 IH]; intros ex; cbn [app collect_files].
  - destruct (collect_files d ex l2) as [[? ?] ?]; reflexivity.
  - destruct (sig_complete _ && bool_decide _); rewrite IH;
      destruct (collect_files d _ l1) as [[e1 f1] x1];
      destruct (collect_files d x1 l2) as [[e2 f2] x2]; reflexivity.
Qed.

Lemma collect_files_final (d : gmap pystr meta) (ex : gset sig) (l : list pystr) evs fwd fin :
  collect_files d ex l = (evs, fwd, fin) ->
  forall s, s ∈ fin <-> s ∈ ex \/ exists p, p ∈ l /\ sig_complete (fsig d p) = true /\ fsig d p = s.
Proof.
  revert ex evs fwd fin. induction l as [|p l IH]; intros ex evs fwd fin H s; cbn [collect_files] in H.
  - inversion H; subst. split; [by left|]. intros [?|(? & Hp & _)]; [done|inversion Hp].
  - destruct (sig_complete (file_sig (meta_lookup d p))) eqn:Hc; simpl in H.
    + destruct (bool_decide (file_sig (meta_lookup d p) ∈ ex)) eqn:Hin.
      * apply bool_decide_eq_true in Hin.
        destruct (collect_files d ex l) as [[evs' fwd'] fin'] eqn:E.
        inversion H; subst. rewrite (IH _ _ _ _ E s). unfold fsig at 1 2.
        setoid_rewrite elem_of_cons. split.
        -- intros [?|(q & ? & ? & ?)]; [by left|right; exists q; auto].
        -- intros [?|(q & [->|?] & ? & ?)]; [by left| |right; exists q; auto].
           left. subst s. exact Hin.
      * destruct (collect_files d _ l) as [[evs' fwd'] fin'] eqn:E.
        inversion H; subst. rewrite (IH _ _ _ _ E s). setoid_rewrite elem_of_cons.
        rewrite elem_of_union, elem_of_singleton. unfold fsig. split.
        -- intros [[->|?]|(q & ? & ? & ?)]; [right; exists p; auto|by left|right; exists q; auto].
        -- intros [?|(q & [->|?] & ? & ?)]; [by left; right|left; left; done|right; exists q; auto].
    + destruct (collect_files d ex l) as [[evs' fwd'] fin'] eqn:E.
      inversion H; subst. rewrite (IH _ _ _ _ E s). setoid_rewrite elem_of_cons. unfold fsig. split.
      * intros [?|(q & ? & ? & ?)]; [by left|right; exists q; auto].
      * intros [?|(q & [->|?] & ? & ?)]; [by left|congruence|right; exists q; auto].
Qed.

(** A path whose complete signature is already in the working set is
    archived at each of its places and never forwarded. *)
Lemma collect_files_known (d : gmap pystr meta) (ex : gset sig) (l : list pystr) (q : pystr)
      evs fwd fin :
  collect_files d ex l = (evs, fwd, fin) ->
  sig_complete (fsig d q) = true -> fsig d q ∈ ex ->
  (q ∈ l -> EvArchive q ∈ evs) /\ (q ∉ fwd).
Proof.
  intros H Hc Hin. revert ex evs fwd fin H Hin.
  induction l as [|p l IH]; intros ex evs fwd fin H Hin; cbn [collect_files] in H.
  - inversion H; subst. split; inversion 1.
  - destruct (sig_complete (file_sig (meta_lookup d p)) && bool_decide _) eqn:Hb.
    + destruct (collect_files d ex l) as [[evs' fwd'] fin'] eqn:E.
      inversion H; subst. destruct (IH _ _ _ _ E Hin) as [Ha Hf]. split; [|done].
      rewrite !elem_of_cons. intros [->|Hq]; [by left|right; by apply Ha].
    + destruct (collect_files d _ l) as [[evs' fwd'] fin'] eqn:E.
      inversion H; subst.
      assert (Hin' : fsig d q ∈ (if sig_complete (file_sig (meta_lookup d p))
                                 then {[file_sig (meta_lookup d p)]} ∪ ex else ex))
        by (destruct (sig_complete (file_sig (meta_lookup d p))); [apply elem_of_union_r|]; exact Hin).
      destruct (IH _ _ _ _ E Hin') as [Ha Hf]. split.
      * rewrite elem_of_cons. intros [->|Hq]; [|by apply Ha].
        unfold fsig in Hc, Hin. rewrite Hc, bool_decide_eq_true_2 in Hb by exact Hin. discriminate.
      * rewrite elem_of_cons. intros [->|Hq]; [|contradiction].
        unfold fsig in Hc, Hin. rewrite Hc, bool_decide_eq_true_2 in Hb by exact Hin. discriminate.
Qed.

(** The decision at the place of a path with a complete signature. *)
Lemma collect_files_head (d : gmap pystr meta) (ex : gset sig) (q : pystr) (l : list pystr)
      evs fwd fin :
  collect_files d ex (q :: l) = (evs, fwd, fin) -> sig_complete (fsig d q) = true ->
  (q ∈ fwd <-> fsig d q ∉ ex) /\ (fsig d q ∈ ex -> EvArchive q ∈ evs).
Proof.
  intros H Hc. cbn [collect_files] in H. unfold fsig in *. rewrite Hc in H. simpl in H.
  destruct (decide (file_sig (meta_lookup d q) ∈ ex)) as [Hin|Hin].
  - rewrite bool_decide_eq_true_2 in H by exact Hin.
    destruct (collect_files d ex l) as [[evs' fwd'] fin'] eqn:E. inversion H; subst.
    destruct (collect_files_known d ex l q _ _ _ E Hc Hin) as [_ Hf].
    split; [split; [intros Hq; contradiction|intros Hn; contradiction]|intros _; by left].
  - rewrite bool_decide_eq_false_2 in H by exact Hin.
    destruct (collect_files d _ l) as [[evs' fwd'] fin'] eqn:E. inversion H; subst.
    split; [split; [intros _; exact Hin|intros _; by left]|intros Hx; contradiction].
Qed.

(** Files that reach a store write are forwarded files. *)
Lemma run_writes_forwarded (e : env) (pr : prepared) (q : pystr) ok ps rs :
  prepare e = inr pr -> EvWrite ok ps rs ∈ fst (run_pipeline e) -> q ∈ ps -> q ∈ pr_files pr.
Proof.
  intros H Hx Hq. destruct (prepared_split e pr H) as (dups & Hdup & _).
  rewrite (run_pipeline_prepared e pr H), Hdup in Hx. apply elem_of_app in Hx as [Hx|Hx].
  - by apply map_archive_no_write in Hx.
  - destruct (pr_files pr) as [|f fs] eqn:Ef; [inversion Hx|]. rewrite <- Ef in *.
    apply upload_event in Hx. apply (chunk_events_write _ _ _ _ _ _ q) in Hx; [|done].
    by rewrite chunks_cover in Hx.
Qed.

Lemma dup_events_in_run (e : env) (pr : prepared) (q : pystr) :
  prepare e = inr pr -> EvArchive q ∈ pr_dup_events pr -> EvArchive q ∈ fst (run_pipeline e).
Proof. intros H Hq. rewrite (run_pipeline_prepared e pr H). apply elem_of_app. by left. Qed.

Lemma forwarded_in_prefix (d : gmap pystr meta) (ex : gset sig) (l : list pystr) evs fwd fin q :
  collect_files d ex l = (evs, fwd, fin) -> q ∈ fwd -> q ∈ l.
Proof.
  intros H Hq. destruct (collect_files_perm d ex l evs fwd fin H) as (dups & _ & Hp).
  rewrite Hp. apply elem_of_app. by right.
Qed.

(** X12. In a pass, a listed file whose signature is complete, at its first
    place in the listing, is forwarded to the uploader exactly when its
    signature is neither in the working set seeded from the store nor the
    signature of a file listed before it. Otherwise it is archived as a
    duplicate and no store write contains it. *)
Theorem complete_signature_forwarded_iff_new (e : env) (pr : prepared) (l1 l2 : list pystr) (q : pystr) :
  prepare e = inr pr -> listing e = l1 ++ q :: l2 -> q ∉ l1 ->
  sig_complete (fsig (pr_meta_dict pr) q) = true ->
  (q ∈ pr_files pr <->
     (fsig (pr_meta_dict pr) q ∉ pr_seed pr) /\
     (forall p, p ∈ l1 -> fsig (pr_meta_dict pr) p <> fsig (pr_meta_dict pr) q)) /\
  (q ∉ pr_files pr ->
     EvArchive q ∈ pr_dup_events pr /\ EvArchive q ∈ fst (run_pipeline e) /\
     forall ok ps rs, EvWrite ok ps rs ∈ fst (run_pipeline e) -> q ∉ ps).
Proof.
  intros H Hl Hq1 Hc. pose proof (prepare_inv e pr H) as [Hcf _].
  rewrite Hl, collect_files_app in Hcf.
  destruct (collect_files _ _ l1) as [[e1 f1] x1] eqn:E1.
  destruct (collect_files _ x1 (q :: l2)) as [[e2 f2] x2] eqn:E2.
  injection Hcf as Hd Hf Hfin.
  destruct (collect_files_head _ _ _ _ _ _ _ E2 Hc) as [Hiff Harch].
  assert (Hnf1 : q ∉ f1) by (intros Hq; exact (Hq1 (forwarded_in_prefix _ _ _ _ _ _ _ E1 Hq))).
  assert (Hfiles : q ∈ pr_files pr <-> q ∈ f2).
  { rewrite <- Hf, elem_of_app. split; [intros [?|?]; [contradiction|done]|by right]. }
  assert (Hx1 : fsig (pr_meta_dict pr) q ∈ x1 <->
                fsig (pr_meta_dict pr) q ∈ pr_seed pr \/
                exists p, p ∈ l1 /\ fsig (pr_meta_dict pr) p = fsig (pr_meta_dict pr) q).
  { rewrite (collect_files_final _ _ _ _ _ _ E1). split.
    - intros [?|(p & ? & ? & ?)]; [by left|right; by exists p].
    - intros [?|(p & ? & Hp)]; [by left|right; exists p; by rewrite Hp]. }
  split.
  - rewrite Hfiles, Hiff, Hx1. split.
    + intros Hn. split; [intros Hs; apply Hn; by left|].
      intros p Hp Heq. apply Hn. right. by exists p.
    + intros [Hs Hp] [Hs'|(p & Hp' & Heq)]; [contradiction|exact (Hp p Hp' Heq)].
  - intros Hn. rewrite Hfiles, Hiff in Hn.
    assert (Hin : fsig (pr_meta_dict pr) q ∈ x1)
      by (destruct (decide (fsig (pr_meta_dict pr) q ∈ x1)); [done|contradiction]).
    assert (Hdup : EvArchive q ∈ pr_dup_events pr)
      by (rewrite <- Hd; apply elem_of_app; right; by apply Harch).
    split; [exact Hdup|]. split; [exact (dup_events_in_run e pr q H Hdup)|].
    intros ok ps rs Hx Hps. apply Hn.
    assert (Hf' : q ∈ pr_files pr) by exact (run_writes_forwarded e pr q ok ps rs H Hx Hps).
    apply Hfiles, Hiff in Hf'. contradiction.
Qed.

Lemma existing_signature_of_row (rows : list db_row) (r : db_row) :
  Forall (fun r => pd_in_bounds (db_ts r) = true) rows -> r ∈ rows ->
  (db_asset r, strftime_db (db_ts r), db_serial r) ∈ get_existing_signatures (Some rows).
Proof.
  intros Hb Hr. simpl.
  assert (forallb (fun r => pd_in_bounds (db_ts r)) rows = true) as ->.
  { apply forallb_forall. intros x Hx. apply list_elem_of_In in Hx. by eapply Forall_forall in Hb. }
  apply elem_of_list_to_set. apply list_elem_of_In, in_map_iff.
  exists r. split; [reflexivity|]. by apply list_elem_of_In.
Qed.

Lemma pd_in_bounds_year (dt : datetime) : pd_in_bounds dt = true -> 1677 <= dt_year dt <= 2262.
Proof.
  unfold pd_in_bounds, dt_fields. cbn [lex_le]. rewrite andb_true_iff, !orb_true_iff, !andb_true_iff.
  rewrite !Z.ltb_lt, !Z.eqb_eq. lia.
Qed.

(** X13. A listed file whose DateTimeOriginal is in exiftool's colon format
    "YYYY:MM:DD HH:MM:SS" (with any suffix), with an asset code and an
    integer serial, has the signature (asset, "YYYY-MM-DD HH:MM:SS",
    serial), the format in which [get_existing_signatures] renders
    stored timestamps. If the store returns a row with that asset,
    instant and serial, and all rows it returns lie within pandas'
    bounds (so that line 105 does not raise), the file is not forwarded:
    it is archived as a duplicate and no store write contains it. *)
Theorem stored_reading_archived_as_duplicate (e : env) (pr : prepared) (q a : pystr)
      (dt : datetime) (t : pystr) (sn : Z) :
  prepare e = inr pr -> q ∈ listing e ->
  m_dto (meta_lookup (pr_meta_dict pr) q) = Some (JStr (strftime_with ":" dt ++ t)) ->
  clean_asset_code (get_or (m_desc (meta_lookup (pr_meta_dict pr) q)) (JStr [])) = Some a ->
  py_int (get_or (m_serial (meta_lookup (pr_meta_dict pr) q)) (JInt 0)) = Some sn ->
  (forall qs, exists rows, env_db_query e qs = Some rows /\ mkdbrow (Some a) dt sn ∈ rows /\
                          Forall (fun r => pd_in_bounds (db_ts r) = true) rows) ->
  fsig (pr_meta_dict pr) q = (Some a, strftime_db dt, sn) /\
  (q ∉ pr_files pr) /\ EvArchive q ∈ pr_dup_events pr /\ EvArchive q ∈ fst (run_pipeline e) /\
  (forall ok ps rs, EvWrite ok ps rs ∈ fst (run_pipeline e) -> q ∉ ps).
Proof.
  intros H Hq Hdto Ha Hs Hdb.
  pose proof (prepare_inv e pr H) as [Hc (_ & _ & _ & _ & _ & _ & qs & Hseed)].
  destruct (Hdb qs) as (rows & Hrows & Hr & Hb).
  assert (Hy : 1000 <= dt_year dt).
  { eapply Forall_forall in Hb; [|exact Hr]. apply pd_in_bounds_year in Hb. simpl in Hb. lia. }
  assert (Hsig : fsig (pr_meta_dict pr) q = (Some a, strftime_db dt, sn)).
  { unfold fsig, file_sig. rewrite Ha, Hdto, Hs. cbn [get_or py_str]. by rewrite filter_ts_colon. }
  assert (Hin : fsig (pr_meta_dict pr) q ∈ pr_seed pr).
  { rewrite Hseed, Hrows, Hsig. exact (existing_signature_of_row rows _ Hb Hr). }
  assert (Hcomp : sig_complete (fsig (pr_meta_dict pr) q) = true).
  { rewrite Hsig. unfold strftime_db. rewrite strftime_with_4 by exact Hy. reflexivity. }
  destruct (collect_files_known _ _ _ q _ _ _ Hc Hcomp Hin) as [Ha' Hf].
  pose proof (Ha' Hq) as Hdup.
  split; [exact Hsig|]. split; [exact Hf|]. split; [exact Hdup|].
  split; [exact (dup_events_in_run e pr q H Hdup)|].
  intros ok ps rs Hx Hps. exact (Hf (run_writes_forwarded e pr q ok ps rs H Hx Hps)).
Qed.

Section ChunkShape.
Variable e : env.
Variable d : gmap pystr meta.

Lemma paths_of_sublist (c : list pystr) : paths_of e d c `sublist_of` c.
Proof.
  induction c as [|x c IH]; [constructor|]. unfold paths_of in *. rewrite bind_cons.
  destruct (rowf e d x); simpl; by constructor.
Qed.

Lemma paths_rows_of (c : list pystr) :
  Forall2 (fun p r => rowf e d p = Some r) (paths_of e d c) (rows_of e d c).
Proof.
  induction c as [|x c IH]; [constructor|]. unfold paths_of, rows_of in *. rewrite !bind_cons.
  destruct (rowf e d x) eqn:E; simpl; [by constructor|done].
Qed.

Lemma chunk_write_shape (i : nat) (c : list pystr) ok ps rs :
  EvWrite ok ps rs ∈ (process_chunk e d i c).1 ->
  ok = env_write_ok e i /\ ps = paths_of e d c /\ rs = rows_of e d c /\ rs <> [].
Proof.
  rewrite process_chunk_eq. pose proof (failed_of_no_write e d c ok ps rs).
  pose proof (map_archive_no_write (paths_of e d c) ok ps rs).
  destruct (rows_of e d c) as [|r0 rs0] eqn:Er;
    [|destruct (timestamps_convert e _); [destruct (env_write_ok e i) eqn:W|]]; cbn [fst];
    rewrite ?elem_of_app, ?elem_of_cons, ?list_elem_of_singleton; intros Hw.
  - contradiction.
  - destruct Hw as [?|[Hw|?]]; [contradiction| |contradiction]. inversion Hw; subst. done.
  - destruct Hw as [?|[Hw|Hw]]; [contradiction| |inversion Hw]. inversion Hw; subst. done.
  - contradiction.
Qed.

End ChunkShape.

Lemma run_write_chunk (e : env) (pr : prepared) ok ps rs :
  prepare e = inr pr -> EvWrite ok ps rs ∈ fst (run_pipeline e) ->
  exists i c, (i, c) ∈ chunks_of (pr_files pr) /\
    EvWrite ok ps rs ∈ (process_chunk e (pr_meta_dict pr) i c).1.
Proof.
  intros H Hx. destruct (prepared_split e pr H) as (dups & Hdup & _).
  rewrite (run_pipeline_prepared e pr H), Hdup in Hx. apply elem_of_app in Hx as [Hx|Hx].
  - by apply map_archive_no_write in Hx.
  - destruct (pr_files pr) as [|f fs] eqn:Ef; [inversion Hx|]. rewrite <- Ef in *.
    apply upload_event in Hx. unfold chunk_events in Hx.
    apply list_elem_of_bind in Hx as ([i c] & Hx & Hin). by exists i, c.
Qed.

Lemma chunks_of_elem (l : list pystr) (i : nat) (c : list pystr) :
  (i, c) ∈ chunks_of l -> c = take BATCH_SIZE (drop i l).
Proof.
  unfold chunks_of. intros H. apply list_elem_of_In, in_map_iff in H as (j & Hj & _).
  by inversion Hj.
Qed.

Lemma run_write_rows (e : env) (pr : prepared) ok ps rs :
  prepare e = inr pr -> EvWrite ok ps rs ∈ fst (run_pipeline e) ->
  ps <> [] /\ (length ps <= BATCH_SIZE)%nat /\ ps `sublist_of` pr_files pr /\
  Forall2 (fun p r => rowf e (pr_meta_dict pr) p = Some r) ps rs.
Proof.
  intros H Hx. destruct (run_write_chunk e pr ok ps rs H Hx) as (i & c & Hc & Hw).
  apply chunks_of_elem in Hc. destruct (chunk_write_shape _ _ _ _ _ _ _ Hw) as (_ & -> & -> & Hne).
  pose proof (paths_rows_of e (pr_meta_dict pr) c) as Hf.
  split; [|split; [|split; [|exact Hf]]].
  - intros Hn. rewrite Hn in Hf. apply Forall2_nil_inv_l in Hf. contradiction.
  - transitivity (length c); [apply sublist_length, paths_of_sublist|].
    rewrite Hc, length_take. lia.
  - transitivity c; [apply paths_of_sublist|]. rewrite Hc.
    transitivity (drop i (pr_files pr)); [apply sublist_take|apply sublist_drop].
Qed.

(** X15. Every store write of a pass has between 1 and [BATCH_SIZE] files,
    taken in order from [files_to_process], and one row per file: the
    row [process_image] builds for it. *)
Theorem store_writes_are_batches (e : env) (pr : prepared) ok ps rs :
  prepare e = inr pr -> EvWrite ok ps rs ∈ fst (run_pipeline e) ->
  ps <> [] /\ (length ps <= BATCH_SIZE)%nat /\ ps `sublist_of` pr_files pr /\
  Forall2 (fun p r => rowf e (pr_meta_dict pr) p = Some r) ps rs.
Proof. apply run_write_rows. Qed.

Lemma take_while_app_all (P : ascii -> bool) (x y : pystr) :
  Forall (fun c => P c = true) x -> take_while P (x ++ y) = x ++ take_while P y.
Proof. induction 1 as [|c x Hc _ IH]; [done|]. simpl. by rewrite Hc, IH. Qed.

Lemma basename_sep (x f : pystr) : "/"%char ∉ f -> basename (x ++ "/"%char :: f) = f.
Proof.
  intros Hf. unfold basename. rewrite rev_app_distr. simpl. rewrite <- app_assoc.
  rewrite take_while_app_all.
  - simpl. rewrite app_nil_r. apply rev_involutive.
  - apply Forall_forall. intros c Hc. apply list_elem_of_In, in_rev, list_elem_of_In in Hc.
    destruct (ascii_eqb c "/") eqn:E; [|done]. unfold ascii_eqb in E.
    apply Ascii.eqb_eq in E. subst. contradiction.
Qed.

Lemma basename_path_join (dir f : pystr) : "/"%char ∉ f -> basename (path_join dir f) = f.
Proof.
  intros Hf. unfold path_join. destruct (endswith dir (str "/")) eqn:E.
  - unfold endswith in E. apply startswith_prefix in E. destruct E as [k Hk].
    assert (dir = rev k ++ ["/"%char]) as ->.
    { rewrite <- (rev_involutive dir), Hk. simpl. reflexivity. }
    rewrite <- app_assoc. by apply basename_sep.
  - by apply basename_sep.
Qed.

Lemma process_image_filename (ok : pystr -> bool) (p : pystr) (m : meta) (r : row) :
  process_image ok p m = Some r -> r_filename r = basename p.
Proof.
  intros Hrow. unfold process_image in Hrow. repeat case_match; inversion Hrow; reflexivity.
Qed.

(** X16. When the file names [os.walk] reports contain no separator, the
    Filename of every row written to the store is the name [os.walk]
    reported for its file. *)
Theorem written_rows_named_by_walk (e : env) ok ps rs :
  Forall (fun df => Forall (fun f => "/"%char ∉ f) df.2) (env_walk e) ->
  EvWrite ok ps rs ∈ fst (run_pipeline e) ->
  Forall2 (fun p r => exists dir fs f, (dir, fs) ∈ env_walk e /\ f ∈ fs /\
             p = path_join dir f /\ r_filename r = f) ps rs.
Proof.
  intros Hw Hx. destruct (prepare e) as [re|pr] eqn:H.
  { unfold run_pipeline in Hx. rewrite H in Hx. inversion Hx. }
  destruct (run_write_rows e pr ok ps rs H Hx) as (_ & _ & _ & Hf).
  assert (Hl : forall p, p ∈ ps -> p ∈ listing e) by (intros p Hp; exact (proj2 (run_events_listed e p) ok ps rs Hx Hp)).
  clear Hx. induction Hf as [|p r ps rs Hr Hf IH]; constructor.
  - destruct (iter_all_jpgs_elem _ _ p (Hl p ltac:(by left))) as (dir & fs & f & Hd & Hfs & _ & ->).
    exists dir, fs, f. split; [done|]. split; [done|]. split; [done|].
    rewrite (process_image_filename _ _ _ _ Hr). apply basename_path_join.
    rewrite Forall_forall in Hw. specialize (Hw _ Hd). simpl in Hw. rewrite Forall_forall in Hw. by apply Hw.
  - apply IH. intros q Hq. apply Hl. by right.
Qed.

Lemma collect_files_none_forwarded (d : gmap pystr meta) (ex : gset sig) (l : list pystr) evs fin :
  collect_files d ex l = (evs, [], fin) ->
  evs = map EvArchive l /\ Forall (fun p => sig_complete (fsig d p) = true) l.
Proof.
  revert ex evs fin. induction l as [|p l IH]; intros ex evs fin H; cbn [collect_files] in H.
  - by inversion H.
  - destruct (sig_complete (file_sig (meta_lookup d p)) && bool_decide _) eqn:Hb.
    + destruct (collect_files d ex l) as [[evs' fwd'] fin'] eqn:E. inversion H; subst.
      destruct (IH _ _ _ E) as [-> Hf]. split; [done|]. constructor; [|done].
      apply andb_true_iff in Hb as [Hb _]. exact Hb.
    + destruct (collect_files d _ l) as [[evs' fwd'] fin']. discriminate.
Qed.

(** X14. A pass that ends at line 434 (nothing new) archives every listed
    file, in listing order, and does nothing else; it ends there only when
    every listed file has a complete signature. *)
Theorem nothing_new_archives_listing (e : env) (evs : list event) :
  run_pipeline e = (evs, NothingNew) ->
  evs = map EvArchive (listing e) /\
  exists pr, prepare e = inr pr /\ pr_files pr = [] /\
    Forall (fun p => sig_complete (fsig (pr_meta_dict pr) p) = true) (listing e).
Proof.
  unfold run_pipeline. destruct (prepare e) as [r|pr] eqn:H.
  - intros Hr. inversion Hr; subst. unfold prepare in H.
    destruct (get_metadata _ _); [discriminate|]. destruct (map_metadata _) as [? [|? ?]];
      [discriminate|]. destruct (collect_files _ _ _) as [[? ?] ?]. discriminate.
  - destruct (pr_files pr) as [|f fs] eqn:Ef;
      [|destruct (upload_chunks _ _ _) as [? []]]; intros Hr; inversion Hr; subst.
    pose proof (prepare_inv e pr H) as [Hc _]. rewrite Ef in Hc.
    destruct (collect_files_none_forwarded _ _ _ _ _ Hc) as [Hd Hf].
    split; [exact Hd|]. by exists pr.
Qed.

Lemma submseteq_NoDup_l (l1 l2 : list pystr) : l1 ⊆+ l2 -> NoDup l2 -> NoDup l1.
Proof.
  intros Hs Hn. destruct (submseteq_Permutation _ _ Hs) as [k Hk]. rewrite Hk in Hn.
  by apply NoDup_app in Hn as [? _].
Qed.

Lemma archived_map (l : list pystr) : archived_paths (map EvArchive l) = l /\ written_paths (map EvArchive l) = [].
Proof.
  unfold archived_paths, written_paths. rewrite !bind_map. split.
  - induction l as [|x l IH]; [done|]. rewrite bind_cons. simpl. by f_equal.
  - induction l as [|x l IH]; [done|]. by rewrite bind_cons.
Qed.

Section ChunkPaths.
Variable e : env.
Variable d : gmap pystr meta.

Lemma failed_of_paths (c : list pystr) :
  archived_paths (failed_of e d c) ++ paths_of e d c ⊆+ c /\ written_paths (failed_of e d c) = [].
Proof.
  induction c as [|x c [IH IHw]]; [done|]. unfold archived_paths, written_paths, failed_of, paths_of in *.
  rewrite !bind_cons, !bind_app. destruct (rowf e d x); simpl.
  - split; [|done]. rewrite <- Permutation_middle. by apply submseteq_skip.
  - rewrite ?app_nil_r in *. split; [by apply submseteq_skip|done].
Qed.

Lemma chunk_paths (i : nat) (c : list pystr) :
  archived_paths (process_chunk e d i c).1 ⊆+ c /\ written_paths (process_chunk e d i c).1 ⊆+ c.
Proof.
  destruct (failed_of_paths c) as [Hs Hw]. pose proof (paths_of_sublist e d c) as Hp.
  apply sublist_submseteq in Hp.
  assert (Hf : archived_paths (failed_of e d c) ⊆+ c)
    by (apply (submseteq_trans _ (archived_paths (failed_of e d c) ++ paths_of e d c));
        [by apply submseteq_inserts_r|exact Hs]).
  rewrite process_chunk_eq. destruct (rows_of e d c); cbn [fst];
    [split; [done|rewrite Hw; apply submseteq_nil_l]|].
  destruct (timestamps_convert e _); cbn [fst]; [|split; [done|rewrite Hw; apply submseteq_nil_l]].
  unfold archived_paths, written_paths in *.
  destruct (env_write_ok e i); cbn [fst]; rewrite !bind_app, ?bind_cons, ?bind_singleton;
    fold (archived_paths (map EvArchive (paths_of e d c))) (written_paths (map EvArchive (paths_of e d c)));
    rewrite ?(proj1 (archived_map _)), ?(proj2 (archived_map _)); simpl; rewrite Hw, ?app_nil_r; done.
Qed.

Lemma chunk_events_paths (cs : list (nat * list pystr)) :
  archived_paths (chunk_events e d cs) ⊆+ cs ≫= snd /\ written_paths (chunk_events e d cs) ⊆+ cs ≫= snd.
Proof.
  induction cs as [|[i c] cs [IHa IHw]]; [done|]. unfold chunk_events in *.
  rewrite !bind_cons. unfold archived_paths, written_paths in *. rewrite !bind_app.
  destruct (chunk_paths i c) as [Ha Hw]. simpl. split; by apply submseteq_app.
Qed.

End ChunkPaths.

(** X17. In a pass over a listing without repeated paths, no file is moved
    to the archive twice and no file is part of two store writes (or
    listed twice in one). *)
Theorem no_file_archived_or_written_twice (e : env) :
  NoDup (listing e) ->
  NoDup (archived_paths (fst (run_pipeline e))) /\ NoDup (written_paths (fst (run_pipeline e))).
Proof.
  intros Hnd. destruct (prepare e) as [r|pr] eqn:H.
  { unfold run_pipeline. rewrite H. split; constructor. }
  destruct (prepared_split e pr H) as (dups & Hdup & Hperm).
  rewrite (run_pipeline_prepared e pr H), Hdup. rewrite Hperm in Hnd.
  unfold archived_paths, written_paths. rewrite !bind_app.
  fold (archived_paths (map EvArchive dups)) (written_paths (map EvArchive dups)).
  rewrite (proj1 (archived_map _)), (proj2 (archived_map _)).
  destruct (pr_files pr) as [|f fs] eqn:Ef.
  - simpl. rewrite !app_nil_r in *. split; [exact Hnd|constructor].
  - rewrite <- Ef in *.
    destruct (upload_chunks_events e (pr_meta_dict pr) (pr_files pr)) as (cs1 & Hpre & -> & _).
    fold (archived_paths (chunk_events e (pr_meta_dict pr) cs1))
         (written_paths (chunk_events e (pr_meta_dict pr) cs1)).
    destruct (chunk_events_paths e (pr_meta_dict pr) cs1) as [Ha Hw].
    assert (Hsub : cs1 ≫= snd ⊆+ pr_files pr).
    { rewrite <- (chunks_cover (pr_files pr)). destruct Hpre as [cs2 ->].
      rewrite bind_app. apply submseteq_inserts_r. done. }
    pose proof (submseteq_trans _ _ _ Ha Hsub) as Ha'.
    pose proof (submseteq_trans _ _ _ Hw Hsub) as Hw'. clear Ha Hw. rename Ha' into Ha, Hw' into Hw.
    split.
    + apply (submseteq_NoDup_l _ (dups ++ pr_files pr)); [by apply submseteq_skips_l|done].
    + apply (submseteq_NoDup_l _ (dups ++ pr_files pr)); [|done].
      simpl. by apply submseteq_inserts_l.
Qed.

(** X18. In a pass that runs to its end, a listed file is archived unless
    a store write that contained it failed. *)
Theorem listed_file_archived_or_write_failed (e : env) (pr : prepared) (p : pystr) :
  prepare e = inr pr -> snd (run_pipeline e) = Done -> p ∈ listing e ->
  EvArchive p ∈ fst (run_pipeline e) \/
  exists ps rs, EvWrite false ps rs ∈ fst (run_pipeline e) /\ p ∈ ps.
Proof.
  intros H Hdone Hp. destruct (prepared_split e pr H) as (dups & Hdup & Hperm).
  rewrite (run_pipeline_prepared e pr H), Hdup. rewrite Hperm, elem_of_app in Hp.
  destruct Hp as [Hp|Hp].
  { left. apply elem_of_app. left. by apply map_archive_elem. }
  assert (pr_files pr <> []) as Hne by (intros E; rewrite E in Hp; inversion Hp).
  rewrite (run_pipeline_end e pr H Hne) in Hdone.
  destruct (upload_chunks e (pr_meta_dict pr) (pr_files pr)).2 eqn:Eu; [clear Hdone|discriminate].
  destruct (upload_chunks_events e (pr_meta_dict pr) (pr_files pr)) as (cs1 & _ & _ & Hok & _).
  destruct (pr_files pr) as [|f fs] eqn:Ef; [done|]. rewrite <- Ef in *.
  rewrite (upload_done _ _ _ Eu). rewrite <- (chunks_cover (pr_files pr)) in Hp.
  apply list_elem_of_bind in Hp as ([i c] & Hpc & Hic). simpl in Hpc.
  assert (Hci : (process_chunk e (pr_meta_dict pr) i c).2 = true) by exact (proj1 Hok Eu i c Hic).
  assert (Hlift : forall ev, ev ∈ (process_chunk e (pr_meta_dict pr) i c).1 ->
                  ev ∈ map EvArchive dups ++ chunk_events e (pr_meta_dict pr) (chunks_of (pr_files pr))).
  { intros ev Hev. apply elem_of_app. right. unfold chunk_events. apply list_elem_of_bind.
    by exists (i, c). }
  destruct (rowf e (pr_meta_dict pr) p) as [r|] eqn:Hr.
  - destruct (chunk_built_file e (pr_meta_dict pr) i c p r Hpc Hr Hci) as [Ha (ps & rs & Hw & Hps)].
    destruct (env_write_ok e i) eqn:W.
    + left. apply Hlift. by apply Ha.
    + right. exists ps, rs. split; [by apply Hlift|done].
  - left. apply Hlift.
    assert (EvArchive p ∈ failed_of e (pr_meta_dict pr) c) as Hf by (by apply failed_of_archive).
    destruct (chunk_failed_events e (pr_meta_dict pr) i c) as [rest ->]. apply elem_of_app. by left.
Qed.

(** X19. A file beside the archive folder whose path starts with the
    archive path (as "/in/arch2.jpg" for the archive "/in/arch") loses
    its metadata record in [get_metadata], so it is part of no store
    write and, once the pass runs to its end, has been archived; and it
    does not set the trigger. *)
Theorem archive_prefixed_file_archived_without_upload (e : env) (pr : prepared) (p : pystr) :
  prepare e = inr pr -> p ∈ listing e -> startswith p (env_archive e) = true ->
  pr_meta_dict pr !! p = None /\
  (snd (run_pipeline e) = Done -> EvArchive p ∈ fst (run_pipeline e)) /\
  (forall ok ps rs, EvWrite ok ps rs ∈ fst (run_pipeline e) -> p ∉ ps) /\
  file_trigger (env_archive e) p = false.
Proof.
  intros H Hp Hs.
  assert (Hm : pr_meta_dict pr !! p = None).
  { pose proof (prepare_inv e pr H) as [_ (ml & ts & Hg & Hmap & _)].
    destruct (pr_meta_dict pr !! p) as [v|] eqn:E; [|done].
    assert (Hk : (map_metadata ml).1 !! p = Some v) by (by rewrite Hmap).
    apply map_metadata_keys in Hk as (m & Hin & Hsrc). rewrite <- Hg in Hin.
    destruct (get_metadata_sources _ _ m Hin) as (s & Hs' & Hns).
    rewrite Hsrc in Hs'. inversion Hs'; subst s. congruence. }
  assert (Hn : clean_asset_code (get_or (m_desc (meta_lookup (pr_meta_dict pr) p)) JNull) = None)
    by (unfold meta_lookup; rewrite Hm; reflexivity).
  destruct (no_asset_pass e pr p H Hn) as [Hw Hl]. destruct (Hl Hp) as (_ & _ & _ & Ha).
  split; [done|]. split; [done|]. split; [done|].
  unfold file_trigger. rewrite Hs. by destruct (negb _).
Qed.

(** * Instances of the theorems on the sample passes *)

Lemma forwarded_signatures_distinct_and_new_witness :
  prepare Samples.three_files_env = inr (Samples.prepared_of Samples.three_files_env) /\
  NoDup (filter (fun s => sig_complete s = true)
           (map (fsig (pr_meta_dict (Samples.prepared_of Samples.three_files_env)))
                (pr_files (Samples.prepared_of Samples.three_files_env)))).
Proof.
  assert (H : prepare Samples.three_files_env = inr (Samples.prepared_of Samples.three_files_env))
    by (vm_compute; reflexivity).
  split; [exact H|]. exact (proj1 (forwarded_signatures_distinct_and_new _ _ H)).
Defined.

(** C1 (counterexample). Two files with notes that normalize to nothing,
    the same DateTimeOriginal and the same serial are both forwarded in
    one pass, with the same signature (None, "2026-01-21 10:00:00", 5). *)
Lemma twin_signatures_forwarded :
  match prepare Samples.twin_no_note_env with
  | inr pr =>
      pr_files pr = [str "/in/n1.jpg"; str "/in/n2.jpg"] /\
      fsig (pr_meta_dict pr) (str "/in/n1.jpg") = (None, str "2026-01-21 10:00:00", 5) /\
      fsig (pr_meta_dict pr) (str "/in/n2.jpg") = (None, str "2026-01-21 10:00:00", 5)
  | inl _ => False
  end.
Proof. vm_compute. repeat split. Qed.



Lemma unmatched_file_archived_without_upload_witness :
  let e := Samples.three_files_env in
  let pr := Samples.prepared_of e in
  let p := str "/in/z.jpg" in
  prepare e = inr pr /\ p ∈ listing e /\ pr_meta_dict pr !! p = None /\
  p ∈ pr_files pr /\ (EvArchive p ∉ pr_dup_events pr) /\
  collect_files (pr_meta_dict pr) (pr_seed pr) (filter (fun q => q <> p) (listing e))
    = (pr_dup_events pr, filter (fun q => q <> p) (pr_files pr), pr_final_set pr) /\
  (forall ok ps rs, EvWrite ok ps rs ∈ fst (run_pipeline e) -> p ∉ ps) /\
  (snd (run_pipeline e) = Done \/ snd (run_pipeline e) = Raised) /\
  (snd (run_pipeline e) = Done -> EvArchive p ∈ fst (run_pipeline e)).
Proof.
  intros e pr p.
  assert (H1 : prepare e = inr pr) by (vm_compute; reflexivity).
  assert (H2 : p ∈ listing e) by (apply (bool_decide_unpack _); vm_compute; exact I).
  assert (H3 : pr_meta_dict pr !! p = None) by (vm_compute; reflexivity).
  split; [exact H1|]. split; [exact H2|]. split; [exact H3|].
  exact (unmatched_file_archived_without_upload e pr p H1 H2 H3).
Defined.

Lemma archived_paths_never_scanned_witness :
  let e := Samples.three_files_env in
  let p := str "/in/arch/old.jpg" in
  Forall (fun df => Forall (fun f => "/"%char ∉ f) df.2) (env_walk e) /\
  startswith p (env_archive e ++ str "/") = true /\
  (forall m, m ∈ get_metadata (env_archive e) (env_exiftool e) -> m_source m <> Some (JStr p)) /\
  (map_metadata (get_metadata (env_archive e) (env_exiftool e))).1 !! p = None /\
  (p ∉ listing e) /\
  (EvArchive p ∉ fst (run_pipeline e)) /\
  (forall ok ps rs, EvWrite ok ps rs ∈ fst (run_pipeline e) -> p ∉ ps).
Proof.
  intros e p.
  assert (H1 : Forall (fun df => Forall (fun f => "/"%char ∉ f) df.2) (env_walk e))
    by (apply (bool_decide_unpack _); vm_compute; exact I).
  assert (H2 : startswith p (env_archive e ++ str "/") = true) by (vm_compute; reflexivity).
  split; [exact H1|]. split; [exact H2|].
  exact (archived_paths_never_scanned e p H1 H2).
Defined.

Lemma gate_probes_recent_files_and_skips_witness :
  let e := Samples.three_files_env in
  let snaps := Samples.locked_snaps in
  Forall (fun sn => (Gate.scan_locks (env_archive e) (Gate.sn_walk sn)).1 <> []) (loop_prefix 15 snaps) /\
  Gate.wait_for_folder_stability (env_archive e) snaps =
    (false, [Gate.GProbe (str "/in/a.jpg"); Gate.GSleep 1; Gate.GProbe (str "/in/a.jpg"); Gate.GSleep 1]) /\
  Gate.main_iteration snaps e = [].
Proof.
  intros e snaps.
  assert (H : Forall (fun sn => (Gate.scan_locks (env_archive e) (Gate.sn_walk sn)).1 <> [])
                     (loop_prefix 15 snaps))
    by (apply (bool_decide_unpack _); vm_compute; exact I).
  destruct (gate_probes_recent_files_and_skips e snaps H) as (_ & Hw & Hm).
  split; [exact H|]. split; [|exact Hm].
  rewrite Hw. vm_compute. reflexivity.
Defined.

Lemma timestamp_formats_agree_witness :
  dt_valid (mkdt 2026 1 21 9 44 47) = true /\ 1000 <= 2026 /\
  parse_timestamp (strftime_with ":" (mkdt 2026 1 21 9 44 47) ++ str ".158+02:00")
    = Some (strftime_db (mkdt 2026 1 21 9 44 47)) /\
  parse_timestamp (strftime_with "-" (mkdt 2026 1 21 9 44 47) ++ str ".158+02:00")
    = Some (strftime_db (mkdt 2026 1 21 9 44 47)).
Proof.
  assert (H1 : dt_valid (mkdt 2026 1 21 9 44 47) = true) by (vm_compute; reflexivity).
  assert (H2 : 1000 <= dt_year (mkdt 2026 1 21 9 44 47)) by (simpl; lia).
  split; [exact H1|]. split; [lia|].
  destruct timestamp_formats_agree as (_ & _ & _ & _ & _ & H).
  exact (H _ (str ".158+02:00") H1 H2).
Defined.

(** ** Instances of the further properties *)

Lemma clean_asset_code_canonical_witness :
  let v := JStr (str "Oven 1") in let c := str "OVEN1" in
  clean_asset_code v = Some c /\
  (c <> [] /\ Forall (fun x => is_upper_az x || is_digit x = true) c /\
   clean_asset_code (JStr c) = Some c).
Proof.
  intros v c.
  assert (H : clean_asset_code v = Some c) by (vm_compute; reflexivity).
  split; [exact H|]. exact (clean_asset_code_canonical v c H).
Defined.

Lemma clean_asset_code_case_witness :
  let s := str "Oven 1" in
  Forall (fun c => (nat_of_ascii c < 128)%nat) s /\
  (clean_asset_code (JStr (py_lower s)) = clean_asset_code (JStr s) /\
   clean_asset_code (JStr (py_upper s)) = clean_asset_code (JStr s)).
Proof.
  intros s.
  assert (H : Forall (fun c => (nat_of_ascii c < 128)%nat) s) by (repeat constructor; vm_compute; lia).
  split; [exact H|]. exact (clean_asset_code_case s H).
Defined.

Lemma splitext_root_ext_witness :
  let p := str "/in/a (1).jpg" in
  splitext p = (str "/in/a (1)", str ".jpg") /\
  (str "/in/a (1)" ++ str ".jpg" = p /\
   (str ".jpg" = [] \/ exists r, str ".jpg" = "."%char :: r /\ ("."%char ∉ r) /\ ("/"%char ∉ r))).
Proof.
  intros p.
  assert (H : splitext p = (str "/in/a (1)", str ".jpg")) by (vm_compute; reflexivity).
  split; [exact H|]. exact (splitext_root_ext p _ _ H).
Defined.

Lemma move_to_archive_destination_witness :
  let a := str "/in/arch" in let p := str "/in/a.jpg" in
  let dst := str "/in/arch/a_1768981487.jpg" in
  move_to_archive a Samples.clash_world p = (true, Some (p, dst)) /\
  (p = p /\ exists name, dst = path_join a name /\ ("/"%char ∉ name) /\
   (fs_exists Samples.clash_world (path_join a (basename p)) = false -> name = basename p) /\
   (fs_exists Samples.clash_world (path_join a (basename p)) = true ->
      exists base ext, splitext (basename p) = (base, ext) /\
        name = base ++ str "_" ++ str_of_Z (fs_now Samples.clash_world) ++ ext /\
        splitext name = (base ++ str "_" ++ str_of_Z (fs_now Samples.clash_world), ext))).
Proof.
  intros a p dst.
  assert (H : move_to_archive a Samples.clash_world p = (true, Some (p, dst))) by (vm_compute; reflexivity).
  split; [exact H|]. exact (move_to_archive_destination a Samples.clash_world p p dst H).
Defined.

Lemma archive_moves_do_not_trigger_witness :
  let a := str "/in/arch" in let p := str "/in/a.jpg" in
  let dst := str "/in/arch/a_1768981487.jpg" in
  let ev := mkfsev false (str "/in/b.jpg") dst in
  move_to_archive a Samples.clash_world p = (true, Some (p, dst)) /\
  (file_trigger a dst = false /\
   (ev_src_path ev = dst -> on_created a ev = false) /\
   (ev_dest_path ev = dst -> on_moved a ev = false) /\
   (ev_is_directory ev = true -> on_created a ev = false /\ on_moved a ev = false)).
Proof.
  intros a p dst ev.
  assert (H : move_to_archive a Samples.clash_world p = (true, Some (p, dst))) by (vm_compute; reflexivity).
  split; [exact H|]. exact (archive_moves_do_not_trigger a Samples.clash_world p p dst ev H).
Defined.

Lemma map_metadata_last_record_witness :
  let m := Samples.rec "/in/a.jpg" "2026:01:21 09:44:48" "Oven 2" (JInt 6) in
  let l1 := [Samples.rec "/in/a.jpg" "2026:01:21 09:44:47" "Oven 1" (JInt 5)] in
  let l2 := [Samples.rec "/in/n.jpg" "2026:01:21 10:00:00" "--" (JInt 5)] in
  let k := str "/in/a.jpg" in
  m_source m = Some (JStr k) /\ (forall m', m' ∈ l2 -> m_source m' <> Some (JStr k)) /\
  (map_metadata (l1 ++ m :: l2)).1 !! k = Some m.
Proof.
  intros m l1 l2 k.
  assert (H1 : m_source m = Some (JStr k)) by reflexivity.
  assert (H2 : forall m', m' ∈ l2 -> m_source m' <> Some (JStr k)).
  { intros m' Hm. apply list_elem_of_singleton in Hm. subst m'. vm_compute. discriminate. }
  split; [exact H1|]. split; [exact H2|]. exact (map_metadata_last_record l1 l2 m k H1 H2).
Defined.

Lemma complete_signature_forwarded_iff_new_witness :
  let e := Samples.three_files_env in let pr := Samples.prepared_of e in
  let l1 := [str "/in/a.jpg"] in let q := str "/in/a (1).jpg" in
  let l2 := [str "/in/n.jpg"; str "/in/z.jpg"] in
  prepare e = inr pr /\ listing e = l1 ++ q :: l2 /\ (q ∉ l1) /\
  sig_complete (fsig (pr_meta_dict pr) q) = true /\
  ((q ∈ pr_files pr <->
     (fsig (pr_meta_dict pr) q ∉ pr_seed pr) /\
     (forall p, p ∈ l1 -> fsig (pr_meta_dict pr) p <> fsig (pr_meta_dict pr) q)) /\
   (q ∉ pr_files pr ->
     EvArchive q ∈ pr_dup_events pr /\ EvArchive q ∈ fst (run_pipeline e) /\
     forall ok ps rs, EvWrite ok ps rs ∈ fst (run_pipeline e) -> q ∉ ps)).
Proof.
  intros e pr l1 q l2.
  assert (H1 : prepare e = inr pr) by (vm_compute; reflexivity).
  assert (H2 : listing e = l1 ++ q :: l2) by (vm_compute; reflexivity).
  assert (H3 : q ∉ l1) by (apply (bool_decide_unpack _); vm_compute; exact I).
  assert (H4 : sig_complete (fsig (pr_meta_dict pr) q) = true) by (vm_compute; reflexivity).
  split; [exact H1|]. split; [exact H2|]. split; [exact H3|]. split; [exact H4|].
  exact (complete_signature_forwarded_iff_new e pr l1 l2 q H1 H2 H3 H4).
Defined.

Lemma stored_reading_archived_as_duplicate_witness :
  let dt := mkdt 2026 1 21 9 44 47 in
  let e := Samples.one_file_env "2026:01:21 09:44:47"
             (Some [mkdbrow (Some (str "OVEN1")) dt 5]) in
  let pr := Samples.prepared_of e in
  let q := str "/in/a.jpg" in let a := str "OVEN1" in
  prepare e = inr pr /\ q ∈ listing e /\
  m_dto (meta_lookup (pr_meta_dict pr) q) = Some (JStr (strftime_with ":" dt ++ [])) /\
  clean_asset_code (get_or (m_desc (meta_lookup (pr_meta_dict pr) q)) (JStr [])) = Some a /\
  py_int (get_or (m_serial (meta_lookup (pr_meta_dict pr) q)) (JInt 0)) = Some 5 /\
  (forall qs, exists rows, env_db_query e qs = Some rows /\ mkdbrow (Some a) dt 5 ∈ rows /\
                          Forall (fun r => pd_in_bounds (db_ts r) = true) rows) /\
  (fsig (pr_meta_dict pr) q = (Some a, strftime_db dt, 5) /\
   (q ∉ pr_files pr) /\ EvArchive q ∈ pr_dup_events pr /\ EvArchive q ∈ fst (run_pipeline e) /\
   (forall ok ps rs, EvWrite ok ps rs ∈ fst (run_pipeline e) -> q ∉ ps)).
Proof.
  intros dt e pr q a.
  assert (H1 : prepare e = inr pr) by (vm_compute; reflexivity).
  assert (H2 : q ∈ listing e) by (apply (bool_decide_unpack _); vm_compute; exact I).
  assert (H3 : m_dto (meta_lookup (pr_meta_dict pr) q) = Some (JStr (strftime_with ":" dt ++ [])))
    by (vm_compute; reflexivity).
  assert (H4 : clean_asset_code (get_or (m_desc (meta_lookup (pr_meta_dict pr) q)) (JStr [])) = Some a)
    by (vm_compute; reflexivity).
  assert (H5 : py_int (get_or (m_serial (meta_lookup (pr_meta_dict pr) q)) (JInt 0)) = Some 5)
    by (vm_compute; reflexivity).
  assert (H6 : forall qs, exists rows, env_db_query e qs = Some rows /\ mkdbrow (Some a) dt 5 ∈ rows /\
                                      Forall (fun r => pd_in_bounds (db_ts r) = true) rows).
  { intros qs. eexists. split; [reflexivity|]. split; [apply list_elem_of_singleton; reflexivity|].
    constructor; [vm_compute; reflexivity|constructor]. }
  do 5 (split; [assumption|]). split; [exact H6|].
  exact (stored_reading_archived_as_duplicate e pr q a dt [] 5 H1 H2 H3 H4 H5 H6).
Defined.

Lemma nothing_new_archives_listing_witness :
  let e := Samples.one_file_env "2026:01:21 09:44:47"
             (Some [mkdbrow (Some (str "OVEN1")) (mkdt 2026 1 21 9 44 47) 5]) in
  let evs := [EvArchive (str "/in/a.jpg")] in
  run_pipeline e = (evs, NothingNew) /\
  (evs = map EvArchive (listing e) /\
   exists pr, prepare e = inr pr /\ pr_files pr = [] /\
     Forall (fun p => sig_complete (fsig (pr_meta_dict pr) p) = true) (listing e)).
Proof.
  intros e evs.
  assert (H : run_pipeline e = (evs, NothingNew)) by (vm_compute; reflexivity).
  split; [exact H|]. exact (nothing_new_archives_listing e evs H).
Defined.

Lemma store_writes_are_batches_witness :
  let e := Samples.three_files_env in let pr := Samples.prepared_of e in
  let ps := [str "/in/a.jpg"] in let rs := [Samples.row_a "2026-01-21 09:44:47"] in
  prepare e = inr pr /\ EvWrite true ps rs ∈ fst (run_pipeline e) /\
  (ps <> [] /\ (length ps <= BATCH_SIZE)%nat /\ ps `sublist_of` pr_files pr /\
   Forall2 (fun p r => rowf e (pr_meta_dict pr) p = Some r) ps rs).
Proof.
  intros e pr ps rs.
  assert (H1 : prepare e = inr pr) by (vm_compute; reflexivity).
  assert (H2 : EvWrite true ps rs ∈ fst (run_pipeline e))
    by (apply (bool_decide_unpack _); vm_compute; exact I).
  split; [exact H1|]. split; [exact H2|].
  exact (store_writes_are_batches e pr true ps rs H1 H2).
Defined.

Lemma written_rows_named_by_walk_witness :
  let e := Samples.three_files_env in
  let ps := [str "/in/a.jpg"] in let rs := [Samples.row_a "2026-01-21 09:44:47"] in
  Forall (fun df => Forall (fun f => "/"%char ∉ f) df.2) (env_walk e) /\
  EvWrite true ps rs ∈ fst (run_pipeline e) /\
  Forall2 (fun p r => exists dir fs f, (dir, fs) ∈ env_walk e /\ f ∈ fs /\
             p = path_join dir f /\ r_filename r = f) ps rs.
Proof.
  intros e ps rs.
  assert (H1 : Forall (fun df => Forall (fun f => "/"%char ∉ f) df.2) (env_walk e))
    by (apply (bool_decide_unpack _); vm_compute; exact I).
  assert (H2 : EvWrite true ps rs ∈ fst (run_pipeline e))
    by (apply (bool_decide_unpack _); vm_compute; exact I).
  split; [exact H1|]. split; [exact H2|].
  exact (written_rows_named_by_walk e true ps rs H1 H2).
Defined.

Lemma no_file_archived_or_written_twice_witness :
  let e := Samples.three_files_env in
  NoDup (listing e) /\
  (NoDup (archived_paths (fst (run_pipeline e))) /\ NoDup (written_paths (fst (run_pipeline e)))).
Proof.
  intros e.
  assert (H : NoDup (listing e)) by (apply (bool_decide_unpack _); vm_compute; exact I).
  split; [exact H|]. exact (no_file_archived_or_written_twice e H).
Defined.

Lemma listed_file_archived_or_write_failed_witness :
  let e := Samples.failing_write_env in let pr := Samples.prepared_of e in
  let p := str "/in/a.jpg" in
  prepare e = inr pr /\ snd (run_pipeline e) = Done /\ p ∈ listing e /\
  fst (run_pipeline e) = [EvWrite false [p] [Samples.row_a "2026-01-21 09:44:47"]] /\
  (EvArchive p ∈ fst (run_pipeline e) \/
   exists ps rs, EvWrite false ps rs ∈ fst (run_pipeline e) /\ p ∈ ps).
Proof.
  intros e pr p.
  assert (H1 : prepare e = inr pr) by (vm_compute; reflexivity).
  assert (H2 : snd (run_pipeline e) = Done) by (vm_compute; reflexivity).
  assert (H3 : p ∈ listing e) by (apply (bool_decide_unpack _); vm_compute; exact I).
  split; [exact H1|]. split; [exact H2|]. split; [exact H3|]. split; [vm_compute; reflexivity|].
  exact (listed_file_archived_or_write_failed e pr p H1 H2 H3).
Defined.

Lemma archive_prefixed_file_archived_without_upload_witness :
  let e := Samples.archive_sibling_env in let pr := Samples.prepared_of e in
  let p := str "/in/arch2.jpg" in
  prepare e = inr pr /\ p ∈ listing e /\ startswith p (env_archive e) = true /\
  (pr_meta_dict pr !! p = None /\
   (snd (run_pipeline e) = Done -> EvArchive p ∈ fst (run_pipeline e)) /\
   (forall ok ps rs, EvWrite ok ps rs ∈ fst (run_pipeline e) -> p ∉ ps) /\
   file_trigger (env_archive e) p = false).
Proof.
  intros e pr p.
  assert (H1 : prepare e = inr pr) by (vm_compute; reflexivity).
  assert (H2 : p ∈ listing e) by (apply (bool_decide_unpack _); vm_compute; exact I).
  assert (H3 : startswith p (env_archive e) = true) by (vm_compute; reflexivity).
  split; [exact H1|]. split; [exact H2|]. split; [exact H3|].
  exact (archive_prefixed_file_archived_without_upload e pr p H1 H2 H3).
Defined.
